(** * Nucleosynthesis: a shallow embedding of [nucleosynthesis.py]

    The program is a single script: three fixed 6x7 tables ([Rules],
    [Radius], [Thalf]), two resolvers ([decay_product], [fusion_product])
    and a time-stepping loop over a population array [pop] of shape
    [Nt+1, 6, 7].

    Integers (array indices, rule codes) are modelled in [Z].  Populations,
    radii and half-lives are IEEE binary64 numbers, modelled by the kernel's
    primitive floats, so that the tables and the loop can be evaluated on the
    very numbers the script computes with.  numpy arrays are lists (of lists)
    read and written through [get2]/[set2], which spell out numpy's index
    rule: a negative index counts from the end, anything else out of range
    raises [IndexError]. *)

From Stdlib Require Import ZArith Bool List Lia.
From Stdlib Require Import Floats.
From stdpp Require Import base list.

Set Warnings "-inexact-float".
Local Open Scope Z_scope.

(** ** Exceptions *)

Inductive exn : Set :=
| IndexError   (* an index outside an array axis *)
| TypeError    (* subscripting the [None] a function fell through to *)
| NameError.   (* reading a variable that no statement has bound yet *)

Inductive res (A : Type) : Type :=
| Ok (a : A)
| Raise (e : exn).

Arguments Ok {A} a.
Arguments Raise {A} e.

Definition bind {A B : Type} (m : res A) (k : A -> res B) : res B :=
  match m with
  | Ok a => k a
  | Raise e => Raise e
  end.

Declare Scope res_scope.
Delimit Scope res_scope with res.
Notation "x <- m ;; k" := (bind m (fun x => k))
  (at level 100, m at next level, right associativity) : res_scope.
Local Open Scope res_scope.

(** ** numpy indexing *)

(** [a[i]] on an axis of length [len]: [0 <= i < len] is the position itself,
    [-len <= i < 0] counts from the end, anything else raises. *)
Definition norm_index (len : nat) (i : Z) : res nat :=
  if (0 <=? i) && (i <? Z.of_nat len) then Ok (Z.to_nat i)
  else if (- Z.of_nat len <=? i) && (i <? 0) then Ok (Z.to_nat (i + Z.of_nat len))
  else Raise IndexError.

Definition get1 {A : Type} (a : list A) (i : Z) : res A :=
  k <- norm_index (length a) i ;;
  match a !! k with
  | Some x => Ok x
  | None => Raise IndexError
  end.

Definition set1 {A : Type} (a : list A) (i : Z) (x : A) : res (list A) :=
  k <- norm_index (length a) i ;;
  Ok (<[k := x]> a).

(** [a[i, j]] and [a[i, j] = x] on a two-dimensional array. *)
Definition get2 {A : Type} (a : list (list A)) (i j : Z) : res A :=
  row <- get1 a i ;;
  get1 row j.

Definition set2 {A : Type} (a : list (list A)) (i j : Z) (x : A)
  : res (list (list A)) :=
  row <- get1 a i ;;
  row' <- set1 row j x ;;
  set1 a i row'.

(** ** Units of time (lines 15-20) *)

Definition STEP : float := 119e-3%float.
Definition SECOND : float := (1 / STEP)%float.
Definition MILLISECOND : float := (SECOND * 1e-3)%float.
Definition MINUTE : float := (60 * SECOND)%float.
Definition DAY : float := (86400 * SECOND)%float.
Definition YEAR : float := (3.154e7 * SECOND)%float.

(** ** The nuclide tables (lines 22-54) *)

(** Rule codes: 0 = stable, 1 = beta+, 2 = beta-, 3 = proton, 4 = neutron,
    5 = alpha. *)
Definition Rules : list (list Z) :=
  [ [0;0;2;4;4;4;4];
    [1;0;0;4;2;4;2];
    [3;3;3;0;0;2;2];
    [3;3;3;1;5;0;2];
    [3;3;3;1;3;0;0];
    [3;3;3;1;1;1;0] ].

(** [np.ones(7)*r], then the in-place [Radius *= 1e-12]. *)
Definition Radius : list (list float) :=
  map (map (fun r => (r * 1e-12)%float))
    [ repeat (1 * 53)%float 7;
      repeat (1 * 31)%float 7;
      repeat (1 * 167)%float 7;
      repeat (1 * 112)%float 7;
      repeat (1 * 87)%float 7;
      repeat (1 * 67)%float 7 ].

Definition inf : float := infinity.

(** The half-lives as the script first writes them, in time steps. *)
Definition Thalf_raw : list (list float) :=
  [ [inf; inf; 12.3 * YEAR; 0; 0; 0; 0];
    [0; inf; inf; 0; 806.7 * MILLISECOND; 0; 119 * MILLISECOND];
    [0; 0; 0; inf; inf; 839 * MILLISECOND; 178.3 * MILLISECOND];
    [0; 0; 0; 532 * DAY; 0; inf; 1.5e6 * YEAR];
    [0; 0; 0; 0; 770 * MILLISECOND; 0; inf];
    [0; 0; 0; 126.5 * MILLISECOND; 19.2 * SECOND; 20 * MINUTE; inf] ]%float.

(** [Thalf = 1/Thalf]: from here on the table holds inverted half-lives. *)
Definition Thalf : list (list float) :=
  map (map (fun x => (1 / x)%float)) Thalf_raw.

(** ** Constants of the run (lines 56-63) *)

Definition Nt : nat := 1000.

Definition pi : float := 3.141592653589793%float.   (* np.pi *)
Definition log2 : float := 0.6931471805599453%float. (* np.log(2) *)

(** [x**2] on a binary64 scalar, taken as the product [x*x]. *)
Definition sq (x : float) : float := (x * x)%float.

Definition Radius_5_0 : float :=
  match get2 Radius 5 0 with Ok r => r | Raise _ => nan end.

Definition Area : float := (20 * pi * sq Radius_5_0)%float.
Definition onedArea : float := (1 / Area)%float.
Definition NHydrogen : float := 1e6%float.

(** ** The decay resolver (lines 65-86) *)

Definition atom : Type := Z * Z.

(** A Python function that falls through every branch returns [None]. *)
Definition decay_product (z n : Z) : res (option atom) :=
  rule <- get2 Rules z n ;;
  if rule =? 0 then Ok (Some (z, n))
  else if rule =? 1 then Ok (Some (z - 1, n + 1))
  else if rule =? 2 then Ok (Some (z + 1, n - 1))
  else if rule =? 3 then Ok (Some (z - 1, n))
  else if rule =? 4 then Ok (Some (z, n - 1))
  else if rule =? 5 then Ok (Some (z - 2, n - 2))
  else Ok None.

(** ** The fusion resolver (lines 88-100) *)

Definition fusion_product (atom1 atom2 : atom) : atom :=
  if fst atom1 + fst atom2 + 1 >? 5 then atom1
  else if snd atom1 + snd atom2 >? 6 then atom1
  else (fst atom1 + fst atom2 + 1, snd atom1 + snd atom2).

(** ** The population array (lines 102-105) *)

Definition grid : Type := list (list float).

Definition zeros : grid := repeat (repeat 0%float 7) 6.

(** [a[i, j] += x] and [a[i, j] -= x]: read the cell, then store. *)
Definition iadd2 (a : grid) (i j : Z) (x : float) : res grid :=
  v <- get2 a i j ;;
  set2 a i j (v + x)%float.

Definition isub2 (a : grid) (i j : Z) (x : float) : res grid :=
  v <- get2 a i j ;;
  set2 a i j (v - x)%float.

(** Row 0 of [pop]. *)
Definition pop0 : grid :=
  match (p <- set2 zeros 0 0 NHydrogen ;; set2 p 0 1 1000%float) with
  | Ok p => p
  | Raise _ => zeros
  end.

(** ** The time-stepping loop (lines 107-142) *)

(** [x != 0] on binary64: false for both zeros, true for NaN. *)
Definition nonzero (x : float) : bool := negb (x =? 0)%float.

Definition enumerate {A : Type} (l : list A) : list (Z * A) :=
  combine (map Z.of_nat (seq 0 (length l))) l.

(** What [np.where] returns on a two-dimensional array: a tuple of two index
    arrays, [ii[0]] for the rows and [ii[1]] for the columns. *)
Definition index_tuple : Type := list (list Z).

(** [np.where(a != 0)]: the row indices and the column indices of the
    nonzero cells, in row-major order. *)
Definition where_nonzero (a : grid) : index_tuple :=
  let hits :=
    flat_map (fun ir =>
      flat_map (fun jx => if nonzero (snd jx) then [(fst ir, fst jx)] else [])
               (enumerate (snd ir)))
      (enumerate a) in
  [map fst hits; map snd hits].

(** [np.shape(ii)[1]]: the length of the index arrays, that is the number
    of nonzero cells. *)
Definition shape1 (ii : index_tuple) : nat :=
  match ii with
  | rows :: _ => length rows
  | [] => 0
  end.

(** [len(ii)]: the length of the tuple itself. *)
Definition len (ii : index_tuple) : nat := length ii.

(** [np.array([ii[0][k], ii[1][k]])] *)
Definition cell_at (ii : index_tuple) (k : nat) : res atom :=
  rows <- get1 ii 0 ;;
  z <- get1 rows (Z.of_nat k) ;;
  cols <- get1 ii 1 ;;
  n <- get1 cols (Z.of_nat k) ;;
  Ok (z, n).

Definition atom_eqb (a b : atom) : bool :=
  (fst a =? fst b) && (snd a =? snd b).

(** [np.min([a, b])] *)
Definition fmin (a b : float) : float :=
  if (a <? b)%float || is_nan a then a else b.

(** Lines 116-127: the body of the inner loop once [atom2] is bound. *)
Definition fusion_update (popt : grid) (atom1 atom2 : atom) (pop1 : grid)
  : res grid :=
  let prod := fusion_product atom1 atom2 in
  if atom_eqb prod atom1 then Ok pop1
  else
    p1 <- get2 popt (fst atom1) (snd atom1) ;;
    p2 <- get2 popt (fst atom2) (snd atom2) ;;
    r1 <- get2 Radius (fst atom1) (snd atom1) ;;
    r2 <- get2 Radius (fst atom2) (snd atom2) ;;
    let diff := (fmin p1 p2 * pi * sq (r1 + r2) * onedArea)%float in
    pop1 <- iadd2 pop1 (fst prod) (snd prod) (diff / 2)%float ;;
    pop1 <- isub2 pop1 (fst atom1) (snd atom1) (diff / 2)%float ;;
    isub2 pop1 (fst atom2) (snd atom2) (diff / 2)%float.

(** The state the loops thread: row [t+1] of [pop] and the variable [atom2],
    which the decay pass reads after the inner loop has ended. *)
Definition loop_state : Type := grid * option atom.

(** Lines 113-127: [for j in range(len(ii))]. *)
Definition fusion_pass (popt : grid) (ii : index_tuple) (atom1 : atom)
  (st : loop_state) : res loop_state :=
  fold_left (fun acc j =>
      st <- acc ;;
      atom2 <- cell_at ii j ;;
      pop1 <- fusion_update popt atom1 atom2 (fst st) ;;
      Ok (pop1, Some atom2))
    (seq 0 (len ii)) (Ok st).

(** Lines 129-142: the decay of [atom1]. *)
Definition decay_update (popt : grid) (atom1 : atom) (st : loop_state)
  : res grid :=
  prod <- decay_product (fst atom1) (snd atom1) ;;
  h <- get2 Thalf (fst atom1) (snd atom1) ;;
  if (1 <? h * log2)%float then
    prod <- match prod with Some p => Ok p | None => Raise TypeError end ;;
    p1 <- get2 popt (fst atom1) (snd atom1) ;;
    pop1 <- iadd2 (fst st) (fst prod) (snd prod) p1 ;;
    set2 pop1 (fst atom1) (snd atom1) 0%float
  else
    p1 <- get2 popt (fst atom1) (snd atom1) ;;
    h <- get2 Thalf (fst atom1) (snd atom1) ;;
    let diff := (p1 * h * log2)%float in
    prod <- match prod with Some p => Ok p | None => Raise TypeError end ;;
    pop1 <- iadd2 (fst st) (fst prod) (snd prod) diff ;;
    atom2 <- match snd st with Some a => Ok a | None => Raise NameError end ;;
    isub2 pop1 (fst atom1) (fst atom2) diff.

(** Lines 111-142: one turn of [for i in range(np.shape(ii)[1])]. *)
Definition cell_update (popt : grid) (ii : index_tuple) (i : nat)
  (st : loop_state) : res loop_state :=
  atom1 <- cell_at ii i ;;
  st <- fusion_pass popt ii atom1 st ;;
  pop1 <- decay_update popt atom1 st ;;
  Ok (pop1, snd st).

(** Lines 109-142: the body of [for t in range(Nt)], from row [t] to row
    [t+1]. *)
Definition timestep (popt : grid) (atom2 : option atom) : res loop_state :=
  let ii := where_nonzero popt in
  fold_left (fun acc i => st <- acc ;; cell_update popt ii i st)
    (seq 0 (shape1 ii)) (Ok (popt, atom2)).

(** The rows [pop[t], pop[t+1], ...] that [n] more turns of the outer loop
    fill in, and the exception that stopped it, if one did: an exception ends
    the script, and the row it interrupted is lost with it. *)
Fixpoint run (n : nat) (popt : grid) (atom2 : option atom)
  : list grid * option exn :=
  match n with
  | O => ([popt], None)
  | S n' =>
      match timestep popt atom2 with
      | Ok (pop1, atom2') =>
          let r := run n' pop1 atom2' in (popt :: fst r, snd r)
      | Raise e => ([popt], Some e)
      end
  end.

(** The script: [pop] after the loop. *)
Definition pop : list grid * option exn := run Nt pop0 None.

(** ** Notions the properties are stated with *)

(** A nuclide of the chart: [Z] in [0,5], [N] in [0,6]. *)
Definition in_grid (a : atom) : Prop :=
  0 <= fst a <= 5 /\ 0 <= snd a <= 6.

Definition in_gridb (a : atom) : bool :=
  (0 <=? fst a) && (fst a <=? 5) && (0 <=? snd a) && (snd a <=? 6).

(** The integers [lo, lo+1, ..., lo+len-1]. *)
Definition zrange (lo : Z) (len : nat) : list Z :=
  map (fun k => lo + Z.of_nat k) (seq 0 len).

(** Every cell of the chart, in row-major order. *)
Definition cells : list atom := list_prod (zrange 0 6) (zrange 0 7).

(** Every index pair numpy accepts on a 6x7 array, the negative ones
    included. *)
Definition index_pairs : list atom := list_prod (zrange (-6) 12) (zrange (-7) 14).

(** A population row has the shape of the chart. *)
Definition shape_ok (g : grid) : Prop :=
  length g = 6%nat /\ Forall (fun row => length row = 7%nat) g.

(** The test of line 118, negated: the caller takes a fusion to happen when
    the resolver's answer differs from [atom1]. *)
Definition accepted (atom1 atom2 : atom) : bool :=
  negb (atom_eqb (fusion_product atom1 atom2) atom1).

(** The six decay rules by name, with the codes the table stores. *)
Inductive Rule : Set :=
| Stable | BetaPlus | BetaMinus | ProtonEmission | NeutronEmission | AlphaDecay.

Definition rule_code (r : Rule) : Z :=
  match r with
  | Stable => 0
  | BetaPlus => 1
  | BetaMinus => 2
  | ProtonEmission => 3
  | NeutronEmission => 4
  | AlphaDecay => 5
  end.

(** The transformation table of the specification, written from its words
    and not from [decay_product]. *)
Definition rule_transform (r : Rule) (a : atom) : atom :=
  match r with
  | Stable => (fst a, snd a)
  | BetaPlus => (fst a - 1, snd a + 1)
  | BetaMinus => (fst a + 1, snd a - 1)
  | ProtonEmission => (fst a - 1, snd a)
  | NeutronEmission => (fst a, snd a - 1)
  | AlphaDecay => (fst a - 2, snd a - 2)
  end.

(** Boolean checks run over the whole chart. *)
Definition all_rules : list Rule :=
  [Stable; BetaPlus; BetaMinus; ProtonEmission; NeutronEmission; AlphaDecay].

Definition has_rule (a : atom) : bool :=
  match get2 Rules (fst a) (snd a) with
  | Ok c => existsb (fun r => rule_code r =? c) all_rules
  | Raise _ => false
  end.

Definition decays_inside (a : atom) : bool :=
  match decay_product (fst a) (snd a) with
  | Ok (Some a') => in_gridb a'
  | _ => false
  end.

Definition stable_is_zero (a : atom) : bool :=
  match get2 Rules (fst a) (snd a), get2 Thalf (fst a) (snd a) with
  | Ok c, Ok h => implb (c =? 0) (Leibniz.eqb h 0%float || atom_eqb a (4, 5))
  | Ok c, Raise _ => false
  | Raise _, _ => true
  end.

(** A row that is zero except for the population [p] at [a]. *)
Definition single (a : atom) (p : float) : grid :=
  match set2 zeros (fst a) (snd a) p with
  | Ok g => g
  | Raise _ => zeros
  end.

(** A row given by a list of cells and their populations. *)
Definition row_of (l : list (atom * float)) : grid :=
  fold_left (fun g c =>
      match set2 g (fst (fst c)) (snd (fst c)) (snd c) with
      | Ok g' => g'
      | Raise _ => g
      end)
    l zeros.

(** The nucleon number Z+N of a cell as a binary64 number. *)
Definition nucleons (a : atom) : float :=
  of_uint63 (Uint63.of_Z (fst a + snd a)).

(** The total nucleon-weighted mass of a row: the sum over the chart, in
    row-major order, of [pop[Z,N] * (Z+N)]. *)
Definition nucleon_mass (g : grid) : float :=
  fold_left (fun acc a =>
      match get2 g (fst a) (snd a) with
      | Ok x => (acc + x * nucleons a)%float
      | Raise _ => nan
      end)
    cells 0%float.

(** Row [t] of the script's [pop], read at a cell. *)
Definition pop_at (t : nat) (a : atom) : res float :=
  match fst pop !! t with
  | Some g => get2 g (fst a) (snd a)
  | None => Raise IndexError
  end.

Definition nonnegative_at (t : nat) (a : atom) : bool :=
  match pop_at t a with
  | Ok x => (0 <=? x)%float
  | Raise _ => false
  end.

(** The rate of line 133 exceeds 1 at [a]: the decay of [a] is complete
    within one step. *)
Definition decays_completely (a : atom) : bool :=
  match get2 Thalf (fst a) (snd a) with
  | Ok h => (1 <? h * log2)%float
  | Raise _ => false
  end.

(** The decay of [a] keeps the nucleon number and is not touched by the
    debit of line 142: either a Stable cell whose inverted half-life is 0, or
    a BetaPlus or BetaMinus cell that decays completely. *)
Definition mass_keeping (a : atom) : bool :=
  match get2 Rules (fst a) (snd a), get2 Thalf (fst a) (snd a) with
  | Ok c, Ok h =>
      ((c =? rule_code Stable) && Leibniz.eqb h 0%float)
      || (((c =? rule_code BetaPlus) || (c =? rule_code BetaMinus))
          && decays_completely a)
  | _, _ => false
  end.

(** The population of an active cell that is a finite number. *)
Definition finite_nonzero (p : float) : bool := is_finite p && nonzero p.

(** The nucleons a decay by rule [r] sends out of the chart. *)
Definition nucleon_loss (r : Rule) : Z :=
  match r with
  | Stable | BetaPlus | BetaMinus => 0
  | ProtonEmission | NeutronEmission => 1
  | AlphaDecay => 4
  end.

(** The population a row holds at a cell of the chart. *)
Definition cell (g : grid) (a : atom) : float :=
  match get2 g (fst a) (snd a) with
  | Ok x => x
  | Raise _ => nan
  end.

(** The active cells of a row, in the order [np.where] lists them. *)
Definition active (g : grid) : list atom :=
  flat_map (fun ir =>
    flat_map (fun jx => if nonzero (snd jx) then [(fst ir, fst jx)] else [])
             (enumerate (snd ir)))
    (enumerate g).

(** [k] decays in a row, starting from [a]. *)
Fixpoint decay_chain (k : nat) (a : atom) : res (option atom) :=
  match k with
  | O => Ok (Some a)
  | S k' =>
      r <- decay_product (fst a) (snd a) ;;
      match r with
      | Some a' => decay_chain k' a'
      | None => Ok None
      end
  end.

(** The chain from [a] has come to rest at a Stable cell of the chart after
    five decays. *)
Definition rests_in_five (a : atom) : bool :=
  match decay_chain 5 a with
  | Ok (Some s) =>
      in_gridb s &&
      match get2 Rules (fst s) (snd s) with
      | Ok c => c =? rule_code Stable
      | Raise _ => false
      end
  | _ => false
  end.

Definition decays_to_some (a : atom) : bool :=
  match decay_product (fst a) (snd a) with
  | Ok (Some _) => true
  | _ => false
  end.

(** The written half-life of [a] is 0. *)
Definition zero_half_life (a : atom) : bool :=
  match get2 Thalf_raw (fst a) (snd a) with
  | Ok h => (h =? 0)%float
  | Raise _ => false
  end.

Definition rate_matches_half_life (a : atom) : bool :=
  Bool.eqb (decays_completely a) (zero_half_life a).

Definition zero_rate_is_stable (a : atom) : bool :=
  match get2 Rules (fst a) (snd a), get2 Thalf (fst a) (snd a) with
  | Ok c, Ok h => implb (h =? 0)%float (c =? rule_code Stable)
  | _, _ => false
  end.

(** Every population of the row is [+0] or a finite number other than 0: no
    infinity, no NaN, no negative zero. *)
Definition finite_row (g : grid) : Prop :=
  forall b, in_grid b ->
    cell g b = 0%float \/ finite_nonzero (cell g b) = true.

Definition finite_cell (g : grid) (b : atom) : bool :=
  Leibniz.eqb (cell g b) 0%float || finite_nonzero (cell g b).

(** The cell [a] is at rest against the partners [h0] and [h1]: Stable with
    rate 0, and neither pair is accepted by the resolver. *)
Definition at_rest (h0 h1 a : atom) : Prop :=
  get2 Rules (fst a) (snd a) = Ok (rule_code Stable) /\
  get2 Thalf (fst a) (snd a) = Ok 0%float /\
  accepted a h0 = false /\ accepted a h1 = false.

(** The values of a numpy [int64], the type of the indices [np.where]
    returns and of the entries of [atom1] and [atom2]. *)
Definition int64 (x : Z) : Prop := - 2 ^ 63 <= x < 2 ^ 63.

(** The entries of two nuclides are [int64] values and the sums
    [fusion_product] forms of them stay in the [int64] range, so that numpy's
    additions do not wrap around and agree with the additions in [Z]. *)
Definition no_wrap (atom1 atom2 : atom) : Prop :=
  int64 (fst atom1) /\ int64 (snd atom1) /\
  int64 (fst atom2) /\ int64 (snd atom2) /\
  int64 (fst atom1 + fst atom2) /\ int64 (fst atom1 + fst atom2 + 1) /\
  int64 (snd atom1 + snd atom2).

(** ** Enumerating the chart *)

(** Boolean comparisons on [Z] turned into propositions for [lia]. *)
Ltac zbool :=
  rewrite ?negb_true_iff, ?negb_false_iff, ?andb_true_iff, ?andb_false_iff,
    ?Z.gtb_ltb, ?Z.leb_le, ?Z.ltb_lt, ?Z.leb_gt, ?Z.ltb_ge,
    ?Z.eqb_eq, ?Z.eqb_neq in *.

Lemma In_zrange (lo : Z) (len : nat) (z : Z) :
  lo <= z < lo + Z.of_nat len -> In z (zrange lo len).
Proof.
  intros Hz. unfold zrange. apply in_map_iff.
  exists (Z.to_nat (z - lo)). split; [lia |].
  apply in_seq. lia.
Qed.

Lemma in_grid_cells (a : atom) : in_grid a -> In a cells.
Proof.
  destruct a as [z n]. unfold in_grid. cbn [fst snd]. intros [Hz Hn].
  unfold cells. apply in_prod; apply In_zrange; lia.
Qed.

(** A boolean check that passes on the whole chart holds at each nuclide. *)
Lemma chart_forall (P : atom -> bool) :
  forallb P cells = true -> forall a, in_grid a -> P a = true.
Proof.
  intros Hall a Ha. rewrite forallb_forall in Hall.
  apply Hall, in_grid_cells, Ha.
Qed.

Lemma norm_index_Ok_bounds (len k : nat) (i : Z) :
  norm_index len i = Ok k -> - Z.of_nat len <= i < Z.of_nat len.
Proof.
  unfold norm_index.
  destruct ((0 <=? i) && (i <? Z.of_nat len)) eqn:E1.
  - zbool. lia.
  - destruct ((- Z.of_nat len <=? i) && (i <? 0)) eqn:E2; [| discriminate].
    zbool. lia.
Qed.

Lemma get1_Ok_bounds {A : Type} (a : list A) (i : Z) (x : A) :
  get1 a i = Ok x -> - Z.of_nat (length a) <= i < Z.of_nat (length a).
Proof.
  unfold get1. destruct (norm_index (length a) i) as [k | e] eqn:E; simpl.
  - intros _. eapply norm_index_Ok_bounds, E.
  - discriminate.
Qed.

(** A successful read of [Rules] pins the indices to numpy's range. *)
Lemma Rules_Ok_index_pairs (z n rule : Z) :
  get2 Rules z n = Ok rule -> In (z, n) index_pairs.
Proof.
  unfold get2. destruct (get1 Rules z) as [row | e] eqn:E; cbn [bind];
    [| discriminate].
  intros Hn. apply get1_Ok_bounds in Hn.
  pose proof (get1_Ok_bounds _ _ _ E) as Hz.
  assert (Hrow : length row = 7%nat).
  { revert E. unfold get1.
    destruct (norm_index (length Rules) z) as [k | e] eqn:Ek; simpl; [| discriminate].
    assert (Hk : (k < 6)%nat).
    { change (length Rules) with 6%nat in Ek. unfold norm_index in Ek.
      destruct ((0 <=? z) && (z <? Z.of_nat 6)) eqn:E1.
      - injection Ek as Ek. zbool. lia.
      - destruct ((- Z.of_nat 6 <=? z) && (z <? 0)) eqn:E2; [| discriminate].
        injection Ek as Ek. zbool. lia. }
    do 6 (destruct k as [| k]; [simpl; intros [= <-]; reflexivity |]).
    lia. }
  rewrite Hrow in Hn. change (length Rules) with 6%nat in Hz.
  unfold index_pairs. apply in_prod; apply In_zrange; lia.
Qed.

(** Reading a well-shaped row at a nuclide of the chart succeeds. *)
Lemma get2_in_grid (g : grid) (a : atom) :
  shape_ok g -> in_grid a -> exists x, get2 g (fst a) (snd a) = Ok x.
Proof.
  intros [Hlen Hrows] [Hz Hn]. unfold get2, get1, norm_index. rewrite Hlen.
  replace ((0 <=? fst a) && (fst a <? Z.of_nat 6)) with true
    by (symmetry; zbool; lia).
  simpl.
  destruct (lookup_lt_is_Some_2 g (Z.to_nat (fst a))) as [row Hrow]; [lia |].
  rewrite Hrow. simpl.
  assert (Hr : length row = 7%nat).
  { rewrite Forall_forall in Hrows. apply Hrows.
    eapply list_elem_of_lookup_2, Hrow. }
  rewrite Hr.
  replace ((0 <=? snd a) && (snd a <? Z.of_nat 7)) with true
    by (symmetry; zbool; lia).
  simpl.
  destruct (lookup_lt_is_Some_2 row (Z.to_nat (snd a))) as [x Hx]; [lia |].
  rewrite Hx. eauto.
Qed.

(** ** The fusion resolver *)

Lemma fusion_product_inside (atom1 atom2 : atom) :
  fst atom1 + fst atom2 + 1 <= 5 -> snd atom1 + snd atom2 <= 6 ->
  fusion_product atom1 atom2 = (fst atom1 + fst atom2 + 1, snd atom1 + snd atom2).
Proof.
  intros Hz Hn. unfold fusion_product.
  destruct (fst atom1 + fst atom2 + 1 >? 5) eqn:E1; [zbool; lia |].
  destruct (snd atom1 + snd atom2 >? 6) eqn:E2; [zbool; lia |].
  reflexivity.
Qed.

Lemma fusion_product_outside (atom1 atom2 : atom) :
  ~ (fst atom1 + fst atom2 + 1 <= 5 /\ snd atom1 + snd atom2 <= 6) ->
  fusion_product atom1 atom2 = atom1.
Proof.
  intros Hout. unfold fusion_product.
  destruct (fst atom1 + fst atom2 + 1 >? 5) eqn:E1; [reflexivity |].
  destruct (snd atom1 + snd atom2 >? 6) eqn:E2; [reflexivity |].
  zbool. lia.
Qed.

(** The caller's test sees a fusion exactly when the product fits the chart:
    with a proton count that is not negative the product never coincides
    with [atom1]. *)
Lemma accepted_iff (atom1 atom2 : atom) :
  0 <= fst atom2 ->
  accepted atom1 atom2 = true <->
  fst atom1 + fst atom2 + 1 <= 5 /\ snd atom1 + snd atom2 <= 6.
Proof.
  intros H2. unfold accepted, atom_eqb. split.
  - intros Hacc.
    destruct (Z_le_gt_dec (fst atom1 + fst atom2 + 1) 5) as [Hz | Hz];
      [destruct (Z_le_gt_dec (snd atom1 + snd atom2) 6) as [Hn | Hn] |];
      [tauto | |];
      (rewrite fusion_product_outside in Hacc by lia;
       rewrite !Z.eqb_refl in Hacc; discriminate).
  - intros [Hz Hn]. rewrite fusion_product_inside by assumption.
    cbn [fst snd]. zbool. left. lia.
Qed.

(** C6.  For two nuclides of the chart, [fusion_product] answers
    (Z1+Z2+1, N1+N2) if and only if Z1+Z2+1 <= 5 and N1+N2 <= 6, and in every
    other case it answers [atom1] itself, the no-reaction sentinel. *)
Theorem fusion_product_contract (atom1 atom2 : atom) :
  in_grid atom1 -> in_grid atom2 ->
  (fusion_product atom1 atom2 = (fst atom1 + fst atom2 + 1, snd atom1 + snd atom2)
   <-> fst atom1 + fst atom2 + 1 <= 5 /\ snd atom1 + snd atom2 <= 6)
  /\ (~ (fst atom1 + fst atom2 + 1 <= 5 /\ snd atom1 + snd atom2 <= 6) ->
      fusion_product atom1 atom2 = atom1).
Proof.
  intros [Hz1 Hn1] [Hz2 Hn2]. split; [split |].
  - intros Hprod.
    destruct (Z_le_gt_dec (fst atom1 + fst atom2 + 1) 5) as [Hz | Hz];
      [destruct (Z_le_gt_dec (snd atom1 + snd atom2) 6) as [Hn | Hn] |];
      [tauto | |];
      (rewrite fusion_product_outside in Hprod by lia;
       destruct atom1 as [z1 n1]; cbn [fst snd] in *;
       injection Hprod as Hp1 Hp2; lia).
  - intros [Hz Hn]. apply fusion_product_inside; assumption.
  - apply fusion_product_outside.
Qed.

Lemma fusion_product_contract_witness :
  in_grid (5, 0) /\
  fusion_product (5, 0) (5, 0) = (5, 0) /\
  fusion_product (0, 0) (0, 1) = (1, 1).
Proof.
  assert (G50 : in_grid (5, 0)) by (unfold in_grid; cbn [fst snd]; lia).
  assert (G00 : in_grid (0, 0)) by (unfold in_grid; cbn [fst snd]; lia).
  assert (G01 : in_grid (0, 1)) by (unfold in_grid; cbn [fst snd]; lia).
  split; [exact G50 |]. split.
  - apply (proj2 (fusion_product_contract (5, 0) (5, 0) G50 G50)).
    cbn [fst snd]. lia.
  - apply (proj2 (proj1 (fusion_product_contract (0, 0) (0, 1) G00 G01))).
    cbn [fst snd]. lia.
Defined.

(** C10.  On the chart the resolver is symmetric: a pair is accepted in one
    order exactly when it is accepted in the other, and an accepted pair has
    the same product in both orders. *)
Theorem fusion_product_symmetric (a b : atom) :
  in_grid a -> in_grid b ->
  accepted a b = accepted b a /\
  (accepted a b = true -> fusion_product a b = fusion_product b a).
Proof.
  intros [Hza Hna] [Hzb Hnb]. split.
  - apply eq_true_iff_eq.
    rewrite (accepted_iff a b), (accepted_iff b a) by lia. lia.
  - intros Hacc. apply accepted_iff in Hacc as [Hz Hn]; [| lia].
    rewrite !fusion_product_inside by lia. f_equal; lia.
Qed.

Lemma fusion_product_symmetric_witness :
  accepted (0, 1) (1, 2) = accepted (1, 2) (0, 1) /\
  fusion_product (0, 1) (1, 2) = fusion_product (1, 2) (0, 1).
Proof.
  assert (Ga : in_grid (0, 1)) by (unfold in_grid; cbn [fst snd]; lia).
  assert (Gb : in_grid (1, 2)) by (unfold in_grid; cbn [fst snd]; lia).
  destruct (fusion_product_symmetric (0, 1) (1, 2) Ga Gb) as [Hacc Hprod].
  split; [exact Hacc | apply Hprod; reflexivity].
Defined.

(** ** The decay resolver *)

(** Whatever the table holds, a cell carrying the code of rule [r] decays by
    the transformation of [r]. *)
Lemma decay_product_rule (z n : Z) (r : Rule) :
  get2 Rules z n = Ok (rule_code r) ->
  decay_product z n = Ok (Some (rule_transform r (z, n))).
Proof.
  intros Hrule. unfold decay_product. rewrite Hrule.
  destruct r; reflexivity.
Qed.

Lemma has_rule_sound (a : atom) :
  has_rule a = true -> exists r, get2 Rules (fst a) (snd a) = Ok (rule_code r).
Proof.
  unfold has_rule. destruct (get2 Rules (fst a) (snd a)) as [c | e]; [| discriminate].
  intros Hex. apply existsb_exists in Hex as (r & _ & Hr).
  exists r. f_equal. symmetry. apply Z.eqb_eq, Hr.
Qed.

(** C7.  Every cell of the chart carries one of the six rule codes, and
    [decay_product] answers the transformation the table of the specification
    gives for that code; BetaPlus on (1,0) gives (0,1). *)
Theorem decay_product_correct (z n : Z) :
  in_grid (z, n) ->
  (exists r, get2 Rules z n = Ok (rule_code r)) /\
  (forall r, get2 Rules z n = Ok (rule_code r) ->
             decay_product z n = Ok (Some (rule_transform r (z, n)))).
Proof.
  intros Hg. split.
  - apply (has_rule_sound (z, n)).
    apply (chart_forall has_rule); [vm_compute; reflexivity | exact Hg].
  - intros r. apply decay_product_rule.
Qed.

Lemma decay_product_correct_witness :
  in_grid (1, 0) /\
  get2 Rules 1 0 = Ok (rule_code BetaPlus) /\
  decay_product 1 0 = Ok (Some (0, 1)).
Proof.
  assert (G : in_grid (1, 0)) by (unfold in_grid; cbn [fst snd]; lia).
  split; [exact G |]. split; [reflexivity |].
  exact (proj2 (decay_product_correct 1 0 G) BetaPlus eq_refl).
Defined.

Lemma in_gridb_sound (a : atom) : in_gridb a = true -> in_grid a.
Proof. unfold in_gridb, in_grid. intros H. zbool. lia. Qed.

(** C8.  With the fixed table the decay product of a nuclide of the chart is
    again a nuclide of the chart, so reading any well-shaped population row
    at the product succeeds. *)
Theorem decay_product_in_grid (z n : Z) :
  in_grid (z, n) ->
  exists a',
    decay_product z n = Ok (Some a') /\ in_grid a' /\
    forall g : grid, shape_ok g -> exists x, get2 g (fst a') (snd a') = Ok x.
Proof.
  intros Hg.
  assert (Hin : decays_inside (z, n) = true).
  { apply (chart_forall decays_inside); [vm_compute; reflexivity | exact Hg]. }
  unfold decays_inside in Hin. cbn [fst snd] in Hin.
  destruct (decay_product z n) as [[a' |] | e]; try discriminate.
  apply in_gridb_sound in Hin.
  exists a'. split; [reflexivity |]. split; [exact Hin |].
  intros g Hshape. apply get2_in_grid; assumption.
Qed.

Lemma decay_product_in_grid_witness :
  exists a', decay_product 3 4 = Ok (Some a') /\ in_grid a'.
Proof.
  assert (G : in_grid (3, 4)) by (unfold in_grid; cbn [fst snd]; lia).
  destruct (decay_product_in_grid 3 4 G) as (a' & Hdec & Hin & _).
  exists a'. split; assumption.
Defined.

(** ** The inverted half-life table *)

(** On the chart a Stable cell holds the inverted half-life 0, the cell
    (4,5) apart. *)
Lemma stable_inverted_half_life_zero (z n : Z) :
  in_grid (z, n) -> (z, n) <> (4, 5) ->
  get2 Rules z n = Ok (rule_code Stable) -> get2 Thalf z n = Ok 0%float.
Proof.
  intros Hg Hne Hrule.
  assert (Hchk : stable_is_zero (z, n) = true).
  { apply (chart_forall stable_is_zero); [vm_compute; reflexivity | exact Hg]. }
  unfold stable_is_zero in Hchk. cbn [fst snd] in Hchk.
  rewrite Hrule in Hchk.
  destruct (get2 Thalf z n) as [h | e]; [| discriminate].
  cbn in Hchk. apply orb_true_iff in Hchk as [Hz | Heq].
  - apply Leibniz.eqb_spec in Hz. congruence.
  - unfold atom_eqb in Heq. cbn [fst snd] in Heq. zbool.
    destruct Heq as [-> ->]. congruence.
Qed.

(** C9 fails on the table: the cell (4,5) is Stable in [Rules], yet the
    half-life written for it is 0 and not [math.inf], so the inverted table
    holds 1/0 = inf there and not 0. *)
Theorem stable_cell_4_5_inverts_to_infinity :
  get2 Rules 4 5 = Ok (rule_code Stable) /\
  get2 Thalf_raw 4 5 = Ok 0%float /\
  get2 Thalf 4 5 = Ok infinity /\
  get2 Thalf 4 5 <> Ok 0%float.
Proof.
  repeat split; try reflexivity.
  intros H. assert (Hb : Leibniz.eqb infinity 0%float = true).
  { apply Leibniz.eqb_spec. change (get2 Thalf 4 5) with (Ok infinity) in H.
    congruence. }
  vm_compute in Hb. discriminate.
Qed.

(** ** The time-stepping loop *)

(** The script runs all [Nt] steps without raising. *)
Lemma pop_complete : length (fst pop) = S Nt /\ snd pop = None.
Proof. vm_compute. split; reflexivity. Qed.

(** [np.where] on a two-dimensional array returns a tuple of length 2. *)
Lemma len_where_nonzero (g : grid) : len (where_nonzero g) = 2%nat.
Proof. reflexivity. Qed.

(** The inner loop therefore binds [atom2] to entries 0 and 1 of the index
    arrays and to nothing else, however many cells are active. *)
Lemma fusion_pass_reads_two (popt g : grid) (atom1 : atom) (st : loop_state) :
  fusion_pass popt (where_nonzero g) atom1 st =
  (a <- cell_at (where_nonzero g) 0 ;;
   pop1 <- fusion_update popt atom1 a (fst st) ;;
   b <- cell_at (where_nonzero g) 1 ;;
   pop1 <- fusion_update popt atom1 b pop1 ;;
   Ok (pop1, Some b)).
Proof.
  unfold fusion_pass. rewrite len_where_nonzero. cbn [seq fold_left bind].
  destruct (cell_at (where_nonzero g) 0) as [a | e]; cbn [bind]; [| reflexivity].
  destruct (fusion_update popt atom1 a (fst st)) as [pop1 | e]; reflexivity.
Qed.

(** C1 fails on the code.  Row 1 of the script's own run has five active
    cells.  The pair ((1,0),(1,0)) is accepted by the resolver, with product
    (3,0), and its transfer would put a positive amount into (3,0); row 2
    holds 0 there, because [atom2] only ranges over the first two active
    cells. *)
Theorem fusion_pass_skips_active_pairs :
  exists g1 g1',
    fst pop !! 1%nat = Some g1 /\
    where_nonzero g1 = [[0; 0; 1; 1; 1]; [0; 1; 0; 1; 2]] /\
    accepted (1, 0) (1, 0) = true /\
    fusion_product (1, 0) (1, 0) = (3, 0) /\
    fusion_update g1 (1, 0) (1, 0) g1 = Ok g1' /\
    (exists x, get2 g1' 3 0 = Ok x /\ (0 <? x)%float = true) /\
    pop_at 2 (3, 0) = Ok 0%float.
Proof.
  eexists. eexists.
  split; [vm_compute; reflexivity |].
  split; [vm_compute; reflexivity |].
  split; [reflexivity |].
  split; [reflexivity |].
  split; [vm_compute; reflexivity |].
  split; [eexists; split; vm_compute; reflexivity |].
  vm_compute; reflexivity.
Qed.

(** In the branch of line 138 the decayed amount is added to the product
    cell and subtracted from the cell [(atom1[0], atom2[0])]. *)
Lemma decay_update_partial (popt pop1 : grid) (atom1 atom2 prod : atom)
  (h p1 : float) :
  decay_product (fst atom1) (snd atom1) = Ok (Some prod) ->
  get2 Thalf (fst atom1) (snd atom1) = Ok h ->
  (1 <? h * log2)%float = false ->
  get2 popt (fst atom1) (snd atom1) = Ok p1 ->
  decay_update popt atom1 (pop1, Some atom2) =
  (pop1' <- iadd2 pop1 (fst prod) (snd prod) (p1 * h * log2)%float ;;
   isub2 pop1' (fst atom1) (fst atom2) (p1 * h * log2)%float).
Proof.
  intros Hprod Hh Hrate Hp. unfold decay_update.
  rewrite Hprod, Hh. cbn [bind]. rewrite Hrate, Hp. reflexivity.
Qed.

(** C2 fails on the code.  In a row holding 1000 at (5,4) and at (5,5) the
    cell (5,4) decays partially into (4,5): the product cell receives the
    decayed amount, the source cell (5,4) still holds 1000 afterwards, and
    the amount is taken from (5,5) = (atom1[0], atom2[0]) instead.  In the
    script's own run the partial decay of (3,3) at step 3 is taken from
    (3,0), which it leaves negative. *)
Theorem partial_decay_debits_another_cell :
  let g := row_of [((5, 4), 1000%float); ((5, 5), 1000%float)] in
  where_nonzero g = [[5; 5]; [4; 5]] /\
  decays_completely (5, 4) = false /\
  decay_product 5 4 = Ok (Some (4, 5)) /\
  (exists st d h,
      timestep g None = Ok st /\
      get2 (fst st) 4 5 = Ok d /\ (0 <? d)%float = true /\
      get2 (fst st) 5 4 = Ok 1000%float /\
      get2 Thalf 5 5 = Ok h /\
      get2 (fst st) 5 5 = Ok (1000 - d - 1000 * h * log2)%float) /\
  (exists p h x,
      pop_at 3 (3, 3) = Ok p /\ get2 Thalf 3 3 = Ok h /\
      decays_completely (3, 3) = false /\
      pop_at 3 (3, 0) = Ok x /\ (0 <? x)%float = true /\
      decays_completely (3, 0) = true /\
      pop_at 4 (3, 0) = Ok (0 - p * h * log2)%float).
Proof.
  cbv zeta.
  split; [vm_compute; reflexivity |].
  split; [vm_compute; reflexivity |].
  split; [vm_compute; reflexivity |].
  split.
  - do 3 eexists.
    split; [vm_compute; reflexivity |].
    split; [vm_compute; reflexivity |].
    split; [vm_compute; reflexivity |].
    split; [vm_compute; reflexivity |].
    split; vm_compute; reflexivity.
  - do 3 eexists.
    split; [vm_compute; reflexivity |].
    split; [vm_compute; reflexivity |].
    split; [vm_compute; reflexivity |].
    split; [vm_compute; reflexivity |].
    split; [vm_compute; reflexivity |].
    split; vm_compute; reflexivity.
Qed.

(** Every exception the array accesses raise is an [IndexError]. *)
Lemma get1_raise {A : Type} (a : list A) (i : Z) (e : exn) :
  get1 a i = Raise e -> e = IndexError.
Proof.
  unfold get1, norm_index.
  destruct ((0 <=? i) && (i <? Z.of_nat (length a))); cbn [bind].
  - destruct (a !! Z.to_nat i); congruence.
  - destruct ((- Z.of_nat (length a) <=? i) && (i <? 0)); cbn [bind].
    + destruct (a !! Z.to_nat (i + Z.of_nat (length a))); congruence.
    + congruence.
Qed.

Lemma set1_raise {A : Type} (a : list A) (i : Z) (x : A) (e : exn) :
  set1 a i x = Raise e -> e = IndexError.
Proof.
  unfold set1, norm_index.
  destruct ((0 <=? i) && (i <? Z.of_nat (length a))); cbn [bind]; [congruence |].
  destruct ((- Z.of_nat (length a) <=? i) && (i <? 0)); cbn [bind]; congruence.
Qed.

Lemma get2_raise {A : Type} (a : list (list A)) (i j : Z) (e : exn) :
  get2 a i j = Raise e -> e = IndexError.
Proof.
  unfold get2. destruct (get1 a i) as [row | e'] eqn:E; cbn [bind].
  - apply get1_raise.
  - intros [= <-]. eapply get1_raise, E.
Qed.

Lemma set2_raise {A : Type} (a : list (list A)) (i j : Z) (x : A) (e : exn) :
  set2 a i j x = Raise e -> e = IndexError.
Proof.
  unfold set2. destruct (get1 a i) as [row | e'] eqn:E; cbn [bind].
  - destruct (set1 row j x) as [row' | e''] eqn:E'; cbn [bind].
    + apply set1_raise.
    + intros [= <-]. eapply set1_raise, E'.
  - intros [= <-]. eapply get1_raise, E.
Qed.

Lemma iadd2_raise (a : grid) (i j : Z) (x : float) (e : exn) :
  iadd2 a i j x = Raise e -> e = IndexError.
Proof.
  unfold iadd2. destruct (get2 a i j) as [v | e'] eqn:E; cbn [bind].
  - apply set2_raise.
  - intros [= <-]. eapply get2_raise, E.
Qed.

Lemma isub2_raise (a : grid) (i j : Z) (x : float) (e : exn) :
  isub2 a i j x = Raise e -> e = IndexError.
Proof.
  unfold isub2. destruct (get2 a i j) as [v | e'] eqn:E; cbn [bind].
  - apply set2_raise.
  - intros [= <-]. eapply get2_raise, E.
Qed.

Lemma fusion_update_raise (popt pop1 : grid) (atom1 atom2 : atom) (e : exn) :
  fusion_update popt atom1 atom2 pop1 = Raise e -> e = IndexError.
Proof.
  unfold fusion_update.
  destruct (atom_eqb (fusion_product atom1 atom2) atom1); [discriminate |].
  repeat match goal with
  | |- bind (get2 ?a ?i ?j) _ = _ -> _ =>
      let E := fresh "E" in
      destruct (get2 a i j) eqn:E; cbn [bind];
      [| intros [= <-]; eapply get2_raise, E]
  | |- bind (iadd2 ?a ?i ?j ?x) _ = _ -> _ =>
      let E := fresh "E" in
      destruct (iadd2 a i j x) eqn:E; cbn [bind];
      [| intros [= <-]; eapply iadd2_raise, E]
  | |- bind (isub2 ?a ?i ?j ?x) _ = _ -> _ =>
      let E := fresh "E" in
      destruct (isub2 a i j x) eqn:E; cbn [bind];
      [| intros [= <-]; eapply isub2_raise, E]
  end.
  apply isub2_raise.
Qed.

(** With exactly one active cell the step never completes: the inner loop
    asks for a second entry of [ii], which is not there. *)
Lemma single_active_cell_raises (g : grid) (atom2 : option atom) (z n : Z) :
  where_nonzero g = [[z]; [n]] -> timestep g atom2 = Raise IndexError.
Proof.
  intros Hii. unfold timestep. rewrite Hii.
  cbn [shape1 length seq fold_left bind].
  unfold cell_update.
  change (cell_at [[z]; [n]] 0) with (Ok (z, n) : res atom). cbn [bind].
  rewrite <- Hii, fusion_pass_reads_two, Hii.
  change (cell_at [[z]; [n]] 0) with (Ok (z, n) : res atom). cbn [bind fst].
  destruct (fusion_update g (z, n) (z, n) g) as [pop1 | e] eqn:E; cbn [bind].
  - reflexivity.
  - apply fusion_update_raise in E. subst e. reflexivity.
Qed.

(** C4 fails on the code.  With all of the population in the Stable cell
    (5,6), which cannot fuse with itself, the first step raises
    [IndexError]: no later row exists. *)
Theorem stable_single_cell_step_raises :
  let g := single (5, 6) 1000%float in
  get2 Rules 5 6 = Ok (rule_code Stable) /\
  where_nonzero g = [[5]; [6]] /\
  accepted (5, 6) (5, 6) = false /\
  timestep g None = Raise IndexError /\
  run Nt g None = ([g], Some IndexError).
Proof.
  cbv zeta.
  split; [reflexivity |].
  split; [vm_compute; reflexivity |].
  split; [reflexivity |].
  split; vm_compute; reflexivity.
Qed.

(** ** Non-negativity of the population *)

(** Rows 0 to 3 of the script's run are non-negative at every cell of the
    chart. *)
Lemma population_nonnegative_first_rows (t : nat) (a : atom) :
  (t <= 3)%nat -> in_grid a -> nonnegative_at t a = true.
Proof.
  intros Ht Ha.
  assert (Hrows : forallb (fun t' => forallb (nonnegative_at t') cells)
                    (seq 0 4) = true) by (vm_compute; reflexivity).
  rewrite forallb_forall in Hrows.
  apply (chart_forall (nonnegative_at t)); [| exact Ha].
  apply Hrows, in_seq. lia.
Qed.

(** C3 fails on the code.  Row 4 of the script's run is negative at (3,0):
    at step 3 the cell (3,0) decays completely and is reset to 0, and the
    partial decay of (3,3) is then subtracted from (3,0), the cell
    [(atom1[0], atom2[0])], leaving minus the decayed amount there.  So the
    population is not non-negative at every timestep up to [Nt]. *)
Theorem population_goes_negative :
  (exists p h x,
      pop_at 3 (3, 3) = Ok p /\ get2 Thalf 3 3 = Ok h /\
      pop_at 4 (3, 0) = Ok x /\
      x = (0 - p * h * log2)%float /\ (x <? 0)%float = true) /\
  ~ (forall (t : nat) (a : atom),
        (t <= Nt)%nat -> in_grid a -> nonnegative_at t a = true).
Proof.
  split.
  - do 3 eexists.
    split; [vm_compute; reflexivity |].
    split; [vm_compute; reflexivity |].
    split; [vm_compute; reflexivity |].
    split; vm_compute; reflexivity.
  - intros Hall.
    assert (H : nonnegative_at 4 (3, 0) = true).
    { apply Hall; [unfold Nt; lia | unfold in_grid; cbn [fst snd]; lia]. }
    vm_compute in H. discriminate.
Qed.

(** Nothing clamps a cell at 0, and the fusion pass alone can overdraw one:
    in this row every cell is non-negative and every active cell is Stable
    with rate 0, so that no decay moves anything, yet the next row is
    negative at (0,0). *)
Lemma fusion_pass_overdraws :
  let big := 1e6%float in
  let g := row_of [((0, 0), 1%float); ((0, 1), big); ((1, 1), big);
                   ((1, 2), big); ((2, 3), big); ((2, 4), big);
                   ((3, 5), big); ((4, 6), big); ((5, 6), big)] in
  forallb (fun a => match get2 g (fst a) (snd a) with
                    | Ok x => (0 <=? x)%float && implb (nonzero x) (mass_keeping a && negb (decays_completely a))
                    | Raise _ => false
                    end) cells = true /\
  exists st x,
    timestep g None = Ok st /\ get2 (fst st) 0 0 = Ok x /\ (x <? 0)%float = true.
Proof.
  cbv zeta. split; [vm_compute; reflexivity |].
  do 2 eexists. split; [vm_compute; reflexivity |].
  split; vm_compute; reflexivity.
Qed.

(** ** Nucleon-weighted mass under decay *)

(** *** binary64 facts used below *)

Lemma log2_SF : exists m e, Prim2SF log2 = S754_finite false m e.
Proof. do 2 eexists. vm_compute. reflexivity. Qed.

(** Adding 0 to a sum that started from 0 leaves it as it is. *)
Lemma add_0_0_r (y : float) : (0 + y + 0 = 0 + y)%float.
Proof.
  apply Prim2SF_inj. rewrite !add_spec.
  change (Prim2SF 0) with (S754_zero false).
  destruct (Prim2SF y) as [s | s | | s m e]; try reflexivity.
  destruct s; reflexivity.
Qed.

Section FinitePopulation.

(** The population of an active cell, when it is a finite number. *)
Variable p : float.
Hypothesis Hp : finite_nonzero p = true.

Lemma finite_nonzero_SF : exists s m e, Prim2SF p = S754_finite s m e.
Proof.
  pose proof Hp as H.
  unfold finite_nonzero, is_finite, is_nan, is_infinity, nonzero in H.
  rewrite !FloatAxioms.eqb_spec, abs_spec in H.
  change (Prim2SF 0) with (S754_zero false) in H.
  change (Prim2SF infinity) with (S754_infinity false) in H.
  destruct (Prim2SF p) as [s | s | | s m e]; cbn in H; try discriminate.
  - destruct s; discriminate.
  - eauto.
Qed.

(** The amount a cell of rate 0 sends away is a zero, of either sign. *)
Lemma zero_rate_diff_SF :
  exists s, Prim2SF (p * 0 * log2)%float = S754_zero s.
Proof.
  destruct finite_nonzero_SF as (s & m & e & Hsf).
  destruct log2_SF as (m2 & e2 & Hl).
  rewrite !mul_spec, Hsf, Hl. change (Prim2SF 0) with (S754_zero false).
  cbn. eauto.
Qed.

Lemma add_zero_rate_diff : (p + p * 0 * log2 = p)%float.
Proof.
  apply Prim2SF_inj. rewrite add_spec.
  destruct zero_rate_diff_SF as [s' ->].
  destruct finite_nonzero_SF as (s & m & e & ->). reflexivity.
Qed.

Lemma sub_zero_rate_diff : (p - p * 0 * log2 = p)%float.
Proof.
  apply Prim2SF_inj. rewrite sub_spec.
  destruct zero_rate_diff_SF as [s' ->].
  destruct finite_nonzero_SF as (s & m & e & ->). reflexivity.
Qed.

Lemma zero_add_zero_rate_diff : (0 + p * 0 * log2 = 0)%float.
Proof.
  apply Prim2SF_inj. rewrite add_spec.
  destruct zero_rate_diff_SF as [s' ->].
  change (Prim2SF 0) with (S754_zero false). destruct s'; reflexivity.
Qed.

Lemma zero_sub_zero_rate_diff : (0 - p * 0 * log2 = 0)%float.
Proof.
  apply Prim2SF_inj. rewrite sub_spec.
  destruct zero_rate_diff_SF as [s' ->].
  change (Prim2SF 0) with (S754_zero false). destruct s'; reflexivity.
Qed.

Lemma add_0_l : (0 + p = p)%float.
Proof.
  apply Prim2SF_inj. rewrite add_spec.
  destruct finite_nonzero_SF as (s & m & e & ->). reflexivity.
Qed.

End FinitePopulation.

(** *** The decay update on a row with one occupied cell *)

(** Rewrites a row or a sum computed from a finite non-zero [p] with the
    facts above. *)
Ltac float_simpl Hp :=
  let A1 := fresh in let A2 := fresh in let A3 := fresh in
  let A4 := fresh in let A5 := fresh in
  pose proof (add_zero_rate_diff _ Hp) as A1;
  pose proof (sub_zero_rate_diff _ Hp) as A2;
  pose proof (zero_add_zero_rate_diff _ Hp) as A3;
  pose proof (zero_sub_zero_rate_diff _ Hp) as A4;
  pose proof (add_0_l _ Hp) as A5;
  cbv [log2] in A1, A2, A3, A4;
  cbv;
  rewrite ?A1, ?A2, ?A3, ?A4, ?A5, ?add_0_0_r;
  clear A1 A2 A3 A4 A5.

Lemma in_grid_fst_cases (a : atom) :
  in_grid a ->
  fst a = 0 \/ fst a = 1 \/ fst a = 2 \/ fst a = 3 \/ fst a = 4 \/ fst a = 5.
Proof. intros [Hz _]. lia. Qed.

(** What a decay costs in nucleons: nothing under Stable, BetaPlus and
    BetaMinus, one under proton or neutron emission, four under alpha
    decay. *)
Lemma rule_transform_nucleons (r : Rule) (a : atom) :
  fst (rule_transform r a) + snd (rule_transform r a) =
  fst a + snd a - nucleon_loss r.
Proof. destruct r; cbn [rule_transform nucleon_loss fst snd]; lia. Qed.

(** C5 fails on the code.  With 1000 atoms in (4,3) alone, a BetaPlus cell
    that cannot fuse with itself and whose decay product (3,4) has the same
    Z+N, the nucleon-weighted mass of row t is 7000, but the step raises
    [IndexError] at the second turn of the inner loop: there is no row t+1
    and no mass at t+1.  The same holds for every row with one active cell,
    so the conservation the claim states holds for none of them. *)
Theorem single_active_step_leaves_no_mass :
  let g := single (4, 3) 1000%float in
  get2 Rules 4 3 = Ok (rule_code BetaPlus) /\
  decay_product 4 3 = Ok (Some (3, 4)) /\
  where_nonzero g = [[4]; [3]] /\
  accepted (4, 3) (4, 3) = false /\
  nucleon_mass g = 7000%float /\
  timestep g None = Raise IndexError /\
  run Nt g None = ([g], Some IndexError) /\
  ~ (forall (g : grid) (atom2 : option atom) (z n : Z),
        shape_ok g -> where_nonzero g = [[z]; [n]] ->
        exists st, timestep g atom2 = Ok st /\
                   nucleon_mass (fst st) = nucleon_mass g).
Proof.
  cbv zeta.
  split; [reflexivity |].
  split; [reflexivity |].
  split; [vm_compute; reflexivity |].
  split; [reflexivity |].
  split; [vm_compute; reflexivity |].
  split; [vm_compute; reflexivity |].
  split; [vm_compute; reflexivity |].
  intros Hall.
  destruct (Hall (single (4, 3) 1000%float) None 4 3) as (st & Hst & _).
  - split; [reflexivity |]. cbv. repeat constructor.
  - vm_compute. reflexivity.
  - rewrite (single_active_cell_raises _ _ 4 3) in Hst; [discriminate |].
    vm_compute. reflexivity.
Qed.

(** The decay update taken on its own.  With 1000 atoms in (3,0) alone the
    step raises [IndexError]; the decay update of (3,0) by itself, a complete
    proton emission into (2,0), takes the nucleon-weighted mass from 3000 to
    2000. *)
Lemma single_cell_mass_not_conserved :
  let g := single (3, 0) 1000%float in
  (where_nonzero g = [[3]; [0]] /\
   timestep g None = Raise IndexError /\
   get2 Rules 3 0 = Ok (rule_code ProtonEmission) /\
   exists g',
     decay_update g (3, 0) (g, Some (3, 0)) = Ok g' /\
     nucleon_mass g = 3000%float /\
     nucleon_mass g' = 2000%float) /\
  ~ (forall (g : grid) (atom2 : option atom) (z n : Z),
        shape_ok g -> where_nonzero g = [[z]; [n]] ->
        exists st, timestep g atom2 = Ok st /\
                   nucleon_mass (fst st) = nucleon_mass g).
Proof.
  cbv zeta. split.
  - split; [vm_compute; reflexivity |].
    split; [vm_compute; reflexivity |].
    split; [reflexivity |].
    eexists. split; [vm_compute; reflexivity |].
    split; vm_compute; reflexivity.
  - intros Hall.
    destruct (Hall (single (3, 0) 1000%float) None 3 0) as (st & Hst & _).
    + split; [reflexivity |]. cbv. repeat constructor.
    + vm_compute. reflexivity.
    + rewrite (single_active_cell_raises _ _ 3 0) in Hst; [discriminate |].
      vm_compute. reflexivity.
Qed.

(** The decay update taken on its own, where it keeps the mass.  Take a row
    that is zero except for a finite population at
    one nuclide whose decay keeps Z+N and is not subject to the debit of
    line 142: a Stable cell of rate 0, or a BetaPlus or BetaMinus cell that
    decays completely.  The decay update of that nuclide succeeds, leaves the
    whole population in the decay-product cell and nothing elsewhere, and
    the total nucleon-weighted mass of the row is what it was. *)
Lemma decay_keeps_nucleon_mass (a atom2 : atom) (p : float) :
  in_grid a -> in_grid atom2 ->
  finite_nonzero p = true ->
  mass_keeping a = true ->
  exists g' prod,
    decay_product (fst a) (snd a) = Ok (Some prod) /\
    decay_update (single a p) a (single a p, Some atom2) = Ok g' /\
    g' = single prod p /\
    nucleon_mass g' = nucleon_mass (single a p).
Proof.
  intros Ha Ha2 Hp Hkeep.
  apply in_grid_cells in Ha. apply in_grid_fst_cases in Ha2.
  destruct atom2 as [z2 n2]. cbn [fst] in Ha2.
  cbv in Ha.
  repeat (destruct Ha as [<- | Ha]; [try (vm_compute in Hkeep; discriminate) |]);
    [.. | contradiction];
    clear Hkeep;
    repeat (destruct Ha2 as [-> | Ha2]); try subst z2;
    (do 2 eexists;
     split; [vm_compute; reflexivity |];
     split; [float_simpl Hp; reflexivity |];
     split; [reflexivity | float_simpl Hp; reflexivity]).
Qed.

Lemma decay_keeps_nucleon_mass_witness :
  exists g' prod,
    decay_product 1 0 = Ok (Some prod) /\
    decay_update (single (1, 0) 1000%float) (1, 0)
      (single (1, 0) 1000%float, Some (1, 0)) = Ok g' /\
    g' = single prod 1000%float /\
    nucleon_mass g' = nucleon_mass (single (1, 0) 1000%float).
Proof.
  apply (decay_keeps_nucleon_mass (1, 0) (1, 0) 1000%float).
  - unfold in_grid. cbn [fst snd]. lia.
  - unfold in_grid. cbn [fst snd]. lia.
  - reflexivity.
  - reflexivity.
Defined.

(** ** Reading and writing a row of the chart *)

Lemma norm_index_inside (len : nat) (i : Z) :
  0 <= i < Z.of_nat len -> norm_index len i = Ok (Z.to_nat i).
Proof.
  intros Hi. unfold norm_index.
  replace ((0 <=? i) && (i <? Z.of_nat len)) with true; [reflexivity |].
  symmetry. zbool. lia.
Qed.

Lemma get1_inside {A : Type} (a : list A) (i : Z) (x : A) :
  0 <= i -> a !! Z.to_nat i = Some x -> get1 a i = Ok x.
Proof.
  intros Hi Hx. unfold get1.
  rewrite norm_index_inside; [cbn [bind]; rewrite Hx; reflexivity |].
  apply lookup_lt_Some in Hx. lia.
Qed.

Lemma shape_ok_row (g : grid) (a : atom) :
  shape_ok g -> in_grid a ->
  exists row x, g !! Z.to_nat (fst a) = Some row /\ length row = 7%nat /\
                row !! Z.to_nat (snd a) = Some x.
Proof.
  intros [Hlen Hrows] [Hz Hn].
  destruct (lookup_lt_is_Some_2 g (Z.to_nat (fst a))) as [row Hrow]; [lia |].
  assert (Hr : length row = 7%nat).
  { rewrite Forall_forall in Hrows. apply Hrows.
    eapply list_elem_of_lookup_2, Hrow. }
  destruct (lookup_lt_is_Some_2 row (Z.to_nat (snd a))) as [x Hx]; [lia |].
  eauto.
Qed.

Lemma get2_cell (g : grid) (a : atom) :
  shape_ok g -> in_grid a -> get2 g (fst a) (snd a) = Ok (cell g a).
Proof.
  intros Hg Ha. destruct (get2_in_grid g a Hg Ha) as [x Hx].
  unfold cell. rewrite Hx. reflexivity.
Qed.

Lemma atom_eqb_eq (a b : atom) : atom_eqb a b = true <-> a = b.
Proof.
  unfold atom_eqb. destruct a as [z n], b as [z' n']. cbn [fst snd].
  zbool. split; [intros [-> ->]; reflexivity | intros [= -> ->]; lia].
Qed.

Lemma atom_eqb_refl (a : atom) : atom_eqb a a = true.
Proof. apply atom_eqb_eq. reflexivity. Qed.

Lemma atom_eqb_neq (a b : atom) : atom_eqb a b = false <-> a <> b.
Proof.
  rewrite <- atom_eqb_eq. destruct (atom_eqb a b); split; congruence.
Qed.

(** [a[z, n] = x] on a row of the chart: the write succeeds, the row keeps
    its shape, the cell holds [x] and no other cell changes. *)
Lemma set2_chart (g : grid) (a : atom) (x : float) :
  shape_ok g -> in_grid a ->
  exists g',
    set2 g (fst a) (snd a) x = Ok g' /\ shape_ok g' /\
    forall b, in_grid b ->
      cell g' b = if atom_eqb a b then x else cell g b.
Proof.
  unfold grid in *. intros Hg Ha.
  destruct (shape_ok_row g a Hg Ha) as (row & y & Hrow & Hlen & Hy).
  pose proof Ha as [Hz Hn]. pose proof Hg as [Hglen Hrows].
  exists (<[Z.to_nat (fst a) := <[Z.to_nat (snd a) := x]> row]> g).
  split; [| split].
  - unfold set2. rewrite (get1_inside g (fst a) row) by (lia || exact Hrow).
    cbn [bind]. unfold set1. rewrite !norm_index_inside by lia.
    reflexivity.
  - unfold shape_ok. rewrite length_insert. split; [exact Hglen |].
    apply Forall_insert; [exact Hrows | rewrite length_insert; exact Hlen].
  - intros b Hb. pose proof Hb as [Hzb Hnb].
    unfold cell, get2.
    destruct (shape_ok_row g b Hg Hb) as (rowb & yb & Hrowb & Hlenb & Hyb).
    rewrite (get1_inside g (fst b) rowb) by (lia || exact Hrowb).
    cbn [bind]. rewrite (get1_inside rowb (snd b) yb) by (lia || exact Hyb).
    destruct (Z.eq_dec (fst a) (fst b)) as [Ez | Ez].
    + rewrite <- Ez in *.
      assert (rowb = row) by congruence. subst rowb.
      rewrite (get1_inside _ (fst a) (<[Z.to_nat (snd a) := x]> row));
        [| lia | apply list_lookup_insert_eq; apply lookup_lt_Some in Hrow; lia].
      cbn [bind].
      destruct (Z.eq_dec (snd a) (snd b)) as [En | En].
      * rewrite <- En in *.
        rewrite (get1_inside _ (snd a) x);
          [| lia | apply list_lookup_insert_eq; lia].
        replace (atom_eqb a b) with true; [reflexivity |].
        symmetry. unfold atom_eqb. zbool. lia.
      * rewrite (get1_inside _ (snd b) yb);
          [| lia | rewrite list_lookup_insert_ne by lia; exact Hyb].
        replace (atom_eqb a b) with false; [reflexivity |].
        symmetry. unfold atom_eqb. zbool. right. lia.
    + rewrite (get1_inside _ (fst b) rowb);
        [| lia | rewrite list_lookup_insert_ne by lia; exact Hrowb].
      cbn [bind]. rewrite (get1_inside rowb (snd b) yb) by (lia || exact Hyb).
      replace (atom_eqb a b) with false; [reflexivity |].
      symmetry. unfold atom_eqb. zbool. left. lia.
Qed.

Lemma iadd2_chart (g : grid) (a : atom) (x : float) :
  shape_ok g -> in_grid a ->
  exists g',
    iadd2 g (fst a) (snd a) x = Ok g' /\ shape_ok g' /\
    forall b, in_grid b ->
      cell g' b = if atom_eqb a b then (cell g a + x)%float else cell g b.
Proof.
  intros Hg Ha. unfold iadd2. rewrite get2_cell by assumption. cbn [bind].
  apply set2_chart; assumption.
Qed.

Lemma isub2_chart (g : grid) (a : atom) (x : float) :
  shape_ok g -> in_grid a ->
  exists g',
    isub2 g (fst a) (snd a) x = Ok g' /\ shape_ok g' /\
    forall b, in_grid b ->
      cell g' b = if atom_eqb a b then (cell g a - x)%float else cell g b.
Proof.
  intros Hg Ha. unfold isub2. rewrite get2_cell by assumption. cbn [bind].
  apply set2_chart; assumption.
Qed.

(** ** More on the fusion resolver *)

(** X1.  The answer of the resolver never leaves the chart. *)
Theorem fusion_product_in_grid (atom1 atom2 : atom) :
  in_grid atom1 -> in_grid atom2 -> in_grid (fusion_product atom1 atom2).
Proof.
  intros H1 H2. pose proof H1 as [Hz1 Hn1]. pose proof H2 as [Hz2 Hn2].
  unfold fusion_product.
  destruct (fst atom1 + fst atom2 + 1 >? 5) eqn:E1; [exact H1 |].
  destruct (snd atom1 + snd atom2 >? 6) eqn:E2; [exact H1 |].
  unfold in_grid. cbn [fst snd]. zbool. lia.
Qed.

Lemma fusion_product_in_grid_witness : in_grid (fusion_product (2, 3) (1, 2)).
Proof.
  apply (fusion_product_in_grid (2, 3) (1, 2));
    unfold in_grid; cbn [fst snd]; lia.
Defined.

(** X2.  For [int64] entries whose sums do not wrap around, the caller's
    test reads "no reaction" in three cases: the proton bound fails, the
    neutron bound fails, or [atom2] is (-1,0), for which the product is
    [atom1] itself. *)
Theorem sentinel_cases (atom1 atom2 : atom) :
  no_wrap atom1 atom2 ->
  accepted atom1 atom2 = false <->
  fst atom1 + fst atom2 + 1 > 5 \/ snd atom1 + snd atom2 > 6 \/
  atom2 = (-1, 0).
Proof.
  intros _. unfold accepted, fusion_product, atom_eqb.
  destruct atom1 as [z1 n1], atom2 as [z2 n2]. cbn [fst snd].
  destruct (z1 + z2 + 1 >? 5) eqn:E1;
    [| destruct (n1 + n2 >? 6) eqn:E2]; cbn [fst snd].
  - rewrite !Z.eqb_refl. cbn [andb negb]. zbool. split; [lia | reflexivity].
  - rewrite !Z.eqb_refl. cbn [andb negb]. zbool. split; [lia | reflexivity].
  - zbool. split.
    + intros [Hz Hn]. right. right. f_equal; lia.
    + intros [H | [H | [= -> ->]]]; lia.
Qed.

Lemma sentinel_cases_witness :
  no_wrap (3, 2) (-1, 0) /\ accepted (3, 2) (-1, 0) = false.
Proof.
  assert (H : no_wrap (3, 2) (-1, 0))
    by (unfold no_wrap, int64; cbn [fst snd]; lia).
  split; [exact H |].
  apply (proj2 (sentinel_cases (3, 2) (-1, 0) H)).
  right. right. reflexivity.
Defined.

(** An accepted product is a cell of the chart other than both reactants. *)
Lemma accepted_product (atom1 atom2 : atom) :
  in_grid atom1 -> in_grid atom2 -> accepted atom1 atom2 = true ->
  in_grid (fusion_product atom1 atom2) /\
  fusion_product atom1 atom2 <> atom1 /\
  fusion_product atom1 atom2 <> atom2.
Proof.
  intros H1 H2 Hacc.
  pose proof H1 as [Hz1 Hn1]. pose proof H2 as [Hz2 Hn2].
  apply accepted_iff in Hacc as [Hz Hn]; [| lia].
  rewrite fusion_product_inside by assumption.
  destruct atom1 as [z1 n1], atom2 as [z2 n2].
  unfold in_grid. cbn [fst snd] in *.
  split; [lia |]. split; intros [= ? ?]; lia.
Qed.

Lemma shape_ok_Radius : shape_ok Radius.
Proof. split; [reflexivity | repeat constructor]. Qed.

Lemma fusion_update_rejected (popt pop1 : grid) (atom1 atom2 : atom) :
  accepted atom1 atom2 = false -> fusion_update popt atom1 atom2 pop1 = Ok pop1.
Proof.
  unfold accepted, fusion_update. intros H. zbool. rewrite H. reflexivity.
Qed.

(** X3.  The transfer of an accepted pair.  On rows of the chart the fusion
    update of two nuclides the resolver accepts succeeds and keeps the shape;
    it adds half of the transferred amount to the product cell, subtracts
    half from the cell of [atom1] and half from the cell of [atom2], twice
    from the one cell when the two are the same, and changes no other
    cell. *)
Theorem fusion_update_transfer (popt pop1 : grid) (atom1 atom2 : atom) :
  shape_ok popt -> shape_ok pop1 -> in_grid atom1 -> in_grid atom2 ->
  accepted atom1 atom2 = true ->
  let prod := fusion_product atom1 atom2 in
  let half := (fmin (cell popt atom1) (cell popt atom2) * pi
               * sq (cell Radius atom1 + cell Radius atom2) * onedArea / 2)%float in
  exists pop1',
    fusion_update popt atom1 atom2 pop1 = Ok pop1' /\ shape_ok pop1' /\
    cell pop1' prod = (cell pop1 prod + half)%float /\
    cell pop1' atom1 =
      (if atom_eqb atom1 atom2 then cell pop1 atom1 - half - half
       else cell pop1 atom1 - half)%float /\
    cell pop1' atom2 =
      (if atom_eqb atom1 atom2 then cell pop1 atom2 - half - half
       else cell pop1 atom2 - half)%float /\
    forall b, in_grid b -> b <> prod -> b <> atom1 -> b <> atom2 ->
      cell pop1' b = cell pop1 b.
Proof.
  intros Hpopt Hpop1 H1 H2 Hacc prod half.
  destruct (accepted_product atom1 atom2 H1 H2 Hacc) as (Hp & Hp1 & Hp2).
  fold prod in Hp, Hp1, Hp2.
  unfold fusion_update. fold prod.
  replace (atom_eqb prod atom1) with false
    by (symmetry; apply atom_eqb_neq; exact Hp1).
  rewrite !get2_cell by (assumption || apply shape_ok_Radius).
  cbn [bind]. fold half.
  destruct (iadd2_chart pop1 prod half Hpop1 Hp) as (g1 & -> & Hg1 & C1).
  cbn [bind].
  destruct (isub2_chart g1 atom1 half Hg1 H1) as (g2 & -> & Hg2 & C2).
  cbn [bind].
  destruct (isub2_chart g2 atom2 half Hg2 H2) as (g3 & -> & Hg3 & C3).
  exists g3. split; [reflexivity |]. split; [exact Hg3 |].
  assert (E1p : atom_eqb atom1 prod = false) by (apply atom_eqb_neq; congruence).
  assert (E2p : atom_eqb atom2 prod = false) by (apply atom_eqb_neq; congruence).
  assert (Epp : atom_eqb prod prod = true) by apply atom_eqb_refl.
  assert (Ep1 : atom_eqb prod atom1 = false) by (apply atom_eqb_neq; congruence).
  assert (Ep2 : atom_eqb prod atom2 = false) by (apply atom_eqb_neq; congruence).
  split; [| split; [| split]].
  - rewrite (C3 prod Hp), E2p, (C2 prod Hp), E1p, (C1 prod Hp), Epp. reflexivity.
  - rewrite (C3 atom1 H1).
    destruct (atom_eqb atom1 atom2) eqn:E12.
    + apply atom_eqb_eq in E12. subst atom2. rewrite atom_eqb_refl.
      rewrite (C2 atom1 H1), atom_eqb_refl, (C1 atom1 H1), Ep1. reflexivity.
    + replace (atom_eqb atom2 atom1) with false
        by (symmetry; apply atom_eqb_neq; apply atom_eqb_neq in E12; congruence).
      rewrite (C2 atom1 H1), atom_eqb_refl, (C1 atom1 H1), Ep1. reflexivity.
  - rewrite (C3 atom2 H2), atom_eqb_refl.
    destruct (atom_eqb atom1 atom2) eqn:E12.
    + rewrite (C2 atom2 H2), E12. apply atom_eqb_eq in E12. subst atom2.
      rewrite (C1 atom1 H1), Ep1. reflexivity.
    + rewrite (C2 atom2 H2), E12, (C1 atom2 H2), Ep2. reflexivity.
  - intros b Hb Hbp Hb1 Hb2.
    rewrite (C3 b Hb), (C2 b Hb), (C1 b Hb).
    replace (atom_eqb atom2 b) with false by (symmetry; apply atom_eqb_neq; congruence).
    replace (atom_eqb atom1 b) with false by (symmetry; apply atom_eqb_neq; congruence).
    replace (atom_eqb prod b) with false by (symmetry; apply atom_eqb_neq; congruence).
    reflexivity.
Qed.

(** ** More on the decay resolver *)

Lemma get1_outside {A : Type} (a : list A) (i : Z) :
  ~ (- Z.of_nat (length a) <= i < Z.of_nat (length a)) ->
  get1 a i = Raise IndexError.
Proof.
  intros Hi. unfold get1, norm_index.
  replace ((0 <=? i) && (i <? Z.of_nat (length a))) with false
    by (symmetry; zbool; lia).
  replace ((- Z.of_nat (length a) <=? i) && (i <? 0)) with false
    by (symmetry; zbool; lia).
  reflexivity.
Qed.

(** X4.  Asked about [int64] indices, [decay_product] raises [IndexError]
    exactly outside numpy's index range for a 6x7 table, and inside that
    range it always answers a nuclide: it never falls through to [None]. *)
Theorem decay_product_index_range (z n : Z) :
  int64 z -> int64 n ->
  (-6 <= z < 6 /\ -7 <= n < 7 ->
   exists a', decay_product z n = Ok (Some a')) /\
  (~ (-6 <= z < 6 /\ -7 <= n < 7) ->
   decay_product z n = Raise IndexError).
Proof.
  intros _ _. split.
  - intros [Hz Hn].
    assert (Hall : forallb decays_to_some index_pairs = true)
      by (vm_compute; reflexivity).
    rewrite forallb_forall in Hall.
    assert (Hin : In (z, n) index_pairs)
      by (unfold index_pairs; apply in_prod; apply In_zrange; lia).
    apply Hall in Hin. unfold decays_to_some in Hin. cbn [fst snd] in Hin.
    destruct (decay_product z n) as [[a' |] | e]; try discriminate. eauto.
  - intros Hout. unfold decay_product, get2.
    destruct (Z_lt_dec z (-6)) as [Hlo | Hlo];
      [rewrite get1_outside by (change (length Rules) with 6%nat; lia);
       reflexivity |].
    destruct (Z_le_dec 6 z) as [Hhi | Hhi];
      [rewrite get1_outside by (change (length Rules) with 6%nat; lia);
       reflexivity |].
    assert (Hrow : exists row, get1 Rules z = Ok row /\ length row = 7%nat).
    { assert (Hz : In z (zrange (-6) 12)) by (apply In_zrange; lia).
      cbv in Hz.
      repeat (destruct Hz as [<- | Hz];
              [eexists; split; reflexivity |]).
      contradiction. }
    destruct Hrow as (row & -> & Hlen). cbn [bind].
    rewrite get1_outside by (rewrite Hlen; lia). reflexivity.
Qed.

(** A nuclide of the chart decays into a nuclide of the chart. *)
Lemma decay_product_chart (a : atom) :
  in_grid a ->
  exists prod, decay_product (fst a) (snd a) = Ok (Some prod) /\ in_grid prod.
Proof.
  intros Ha.
  assert (Hin : decays_inside a = true).
  { apply (chart_forall decays_inside); [vm_compute; reflexivity | exact Ha]. }
  unfold decays_inside in Hin.
  destruct (decay_product (fst a) (snd a)) as [[a' |] | e]; try discriminate.
  exists a'. split; [reflexivity | apply in_gridb_sound, Hin].
Qed.

Lemma decay_chain_add (j m : nat) (a : atom) :
  decay_chain (j + m) a =
  (r <- decay_chain j a ;;
   match r with
   | Some s => decay_chain m s
   | None => Ok None
   end).
Proof.
  revert a. induction j as [| j IH]; intros a; [reflexivity |].
  cbn [Nat.add decay_chain].
  destruct (decay_product (fst a) (snd a)) as [[a' |] | e]; cbn [bind];
    [apply IH | reflexivity | reflexivity].
Qed.

Lemma decay_chain_rest (m : nat) (s : atom) :
  get2 Rules (fst s) (snd s) = Ok (rule_code Stable) ->
  decay_chain m s = Ok (Some s).
Proof.
  intros Hs. induction m as [| m IH]; [reflexivity |].
  cbn [decay_chain]. unfold decay_product. rewrite Hs. cbn.
  destruct s as [z n]. exact IH.
Qed.

(** X5.  Every decay chain of the chart comes to rest: after five decays, and
    after any larger number of them, the nuclide is one and the same Stable
    cell of the chart. *)
Theorem decay_chain_rests (a : atom) :
  in_grid a ->
  exists s,
    in_grid s /\ get2 Rules (fst s) (snd s) = Ok (rule_code Stable) /\
    forall k, (5 <= k)%nat -> decay_chain k a = Ok (Some s).
Proof.
  intros Ha.
  assert (Hr : rests_in_five a = true).
  { apply (chart_forall rests_in_five); [vm_compute; reflexivity | exact Ha]. }
  unfold rests_in_five in Hr.
  destruct (decay_chain 5 a) as [[s |] | e] eqn:E5; try discriminate.
  apply andb_true_iff in Hr as [Hin Hst].
  destruct (get2 Rules (fst s) (snd s)) as [c | e] eqn:Ec; [| discriminate].
  apply Z.eqb_eq in Hst. subst c.
  exists s. split; [apply in_gridb_sound, Hin |]. split; [exact Ec |].
  intros k Hk. replace k with (5 + (k - 5))%nat by lia.
  rewrite decay_chain_add, E5. cbn [bind].
  apply decay_chain_rest, Ec.
Qed.

Lemma decay_chain_rests_witness :
  exists s, in_grid s /\ decay_chain 7 (0, 6) = Ok (Some s).
Proof.
  assert (G : in_grid (0, 6)) by (unfold in_grid; cbn [fst snd]; lia).
  destruct (decay_chain_rests (0, 6) G) as (s & Hs & _ & Hk).
  exists s. split; [exact Hs | apply Hk; lia].
Defined.

(** ** More on the half-life table *)

(** X6.  On the chart the complete-decay branch is taken exactly at the cells
    whose written half-life is 0: no finite half-life of the table gives a
    rate above 1. *)
Theorem complete_decay_iff_zero_half_life (a : atom) :
  in_grid a -> decays_completely a = zero_half_life a.
Proof.
  intros Ha. apply eqb_prop.
  apply (chart_forall rate_matches_half_life); [vm_compute; reflexivity | exact Ha].
Qed.

Lemma complete_decay_iff_zero_half_life_witness :
  decays_completely (1, 6) = false /\ zero_half_life (1, 6) = false.
Proof.
  assert (G : in_grid (1, 6)) by (unfold in_grid; cbn [fst snd]; lia).
  pose proof (complete_decay_iff_zero_half_life (1, 6) G) as H.
  split; [reflexivity | rewrite <- H; reflexivity].
Defined.

(** X7.  A cell of the chart whose inverted half-life is 0 is Stable, so a
    rate of 0 is never met outside the Stable rule. *)
Theorem zero_rate_stable (a : atom) :
  in_grid a -> get2 Thalf (fst a) (snd a) = Ok 0%float ->
  get2 Rules (fst a) (snd a) = Ok (rule_code Stable).
Proof.
  intros Ha Hh.
  assert (Hc : zero_rate_is_stable a = true).
  { apply (chart_forall zero_rate_is_stable); [vm_compute; reflexivity | exact Ha]. }
  unfold zero_rate_is_stable in Hc. rewrite Hh in Hc.
  destruct (get2 Rules (fst a) (snd a)) as [c | e]; [| discriminate].
  change ((0 =? 0)%float) with true in Hc. cbn [implb] in Hc.
  apply Z.eqb_eq in Hc. congruence.
Qed.

Lemma zero_rate_stable_witness :
  get2 Thalf 3 5 = Ok 0%float /\ get2 Rules 3 5 = Ok (rule_code Stable).
Proof.
  split; [reflexivity |].
  apply (zero_rate_stable (3, 5)); [| reflexivity].
  unfold in_grid. cbn [fst snd]. lia.
Defined.

(** ** The two updates on rows of the chart *)

Lemma shape_ok_Thalf : shape_ok Thalf.
Proof. split; [reflexivity | repeat constructor]. Qed.

Lemma decays_completely_rate (a : atom) :
  in_grid a -> decays_completely a = (1 <? cell Thalf a * log2)%float.
Proof.
  intros Ha. unfold decays_completely.
  rewrite get2_cell by (apply shape_ok_Thalf || exact Ha). reflexivity.
Qed.

(** The fusion update of a pair of nuclides never raises on rows of the
    chart, and keeps their shape. *)
Lemma fusion_update_chart (popt pop1 : grid) (atom1 atom2 : atom) :
  shape_ok popt -> shape_ok pop1 -> in_grid atom1 -> in_grid atom2 ->
  exists pop1', fusion_update popt atom1 atom2 pop1 = Ok pop1' /\ shape_ok pop1'.
Proof.
  intros Hpopt Hpop1 H1 H2.
  destruct (accepted atom1 atom2) eqn:Hacc.
  - destruct (accepted_product atom1 atom2 H1 H2 Hacc) as (Hp & Hp1 & _).
    unfold fusion_update.
    replace (atom_eqb (fusion_product atom1 atom2) atom1) with false
      by (symmetry; apply atom_eqb_neq; exact Hp1).
    rewrite !get2_cell by (assumption || apply shape_ok_Radius).
    cbn [bind].
    match goal with |- context [iadd2 _ _ _ ?d] =>
      destruct (iadd2_chart pop1 _ d Hpop1 Hp) as (g1 & -> & Hg1 & _);
      cbn [bind];
      destruct (isub2_chart g1 atom1 d Hg1 H1) as (g2 & -> & Hg2 & _);
      cbn [bind];
      destruct (isub2_chart g2 atom2 d Hg2 H2) as (g3 & -> & Hg3 & _)
    end.
    eauto.
  - rewrite fusion_update_rejected by exact Hacc. eauto.
Qed.

(** The decay update of a nuclide never raises on rows of the chart once
    [atom2] is bound to a nuclide, and keeps their shape. *)
Lemma decay_update_chart (popt pop1 : grid) (atom1 atom2 : atom) :
  shape_ok popt -> shape_ok pop1 -> in_grid atom1 -> in_grid atom2 ->
  exists pop1',
    decay_update popt atom1 (pop1, Some atom2) = Ok pop1' /\ shape_ok pop1'.
Proof.
  intros Hpopt Hpop1 H1 H2.
  destruct (decay_product_chart atom1 H1) as (prod & Hprod & Hp).
  unfold decay_update. rewrite Hprod. cbn [bind fst snd].
  rewrite !get2_cell by (assumption || apply shape_ok_Thalf). cbn [bind].
  destruct (1 <? cell Thalf atom1 * log2)%float; cbn [bind].
  - destruct (iadd2_chart pop1 prod (cell popt atom1) Hpop1 Hp)
      as (g1 & -> & Hg1 & _).
    cbn [bind].
    destruct (set2_chart g1 atom1 0%float Hg1 H1) as (g2 & -> & Hg2 & _).
    eauto.
  - match goal with |- context [iadd2 _ _ _ ?d] =>
      destruct (iadd2_chart pop1 prod d Hpop1 Hp) as (g1 & -> & Hg1 & _);
      cbn [bind];
      assert (Ht : in_grid (fst atom1, fst atom2))
        by (destruct H1 as [? _], H2 as [? _]; unfold in_grid; cbn [fst snd]; lia);
      destruct (isub2_chart g1 (fst atom1, fst atom2) d Hg1 Ht)
        as (g2 & Hg2eq & Hg2 & _)
    end.
    cbn [fst snd] in Hg2eq. rewrite Hg2eq. eauto.
Qed.

(** X8.  Complete decay.  When the rate of [atom1] exceeds 1, the decay update
    resets the cell of [atom1] to 0, adds the population [atom1] held in row
    t to the product cell when that is another cell, and changes nothing
    else; [atom2] is not read. *)
Theorem decay_update_complete (popt pop1 : grid) (atom1 : atom)
  (atom2 : option atom) :
  shape_ok popt -> shape_ok pop1 -> in_grid atom1 ->
  decays_completely atom1 = true ->
  exists prod pop1',
    decay_product (fst atom1) (snd atom1) = Ok (Some prod) /\
    decay_update popt atom1 (pop1, atom2) = Ok pop1' /\ shape_ok pop1' /\
    cell pop1' atom1 = 0%float /\
    (prod <> atom1 ->
     cell pop1' prod = (cell pop1 prod + cell popt atom1)%float) /\
    forall b, in_grid b -> b <> atom1 -> b <> prod ->
      cell pop1' b = cell pop1 b.
Proof.
  intros Hpopt Hpop1 H1 Hrate.
  rewrite decays_completely_rate in Hrate by exact H1.
  destruct (decay_product_chart atom1 H1) as (prod & Hprod & Hp).
  exists prod.
  unfold decay_update. rewrite Hprod. cbn [bind fst snd].
  rewrite !get2_cell by (assumption || apply shape_ok_Thalf). cbn [bind].
  rewrite Hrate. cbn [bind].
  destruct (iadd2_chart pop1 prod (cell popt atom1) Hpop1 Hp)
    as (g1 & -> & Hg1 & C1).
  cbn [bind].
  destruct (set2_chart g1 atom1 0%float Hg1 H1) as (g2 & -> & Hg2 & C2).
  exists g2. split; [reflexivity |]. split; [reflexivity |].
  split; [exact Hg2 |]. split; [| split].
  - rewrite (C2 atom1 H1), atom_eqb_refl. reflexivity.
  - intros Hne. rewrite (C2 prod Hp).
    replace (atom_eqb atom1 prod) with false
      by (symmetry; apply atom_eqb_neq; congruence).
    rewrite (C1 prod Hp), atom_eqb_refl. reflexivity.
  - intros b Hb Hb1 Hbp. rewrite (C2 b Hb), (C1 b Hb).
    replace (atom_eqb atom1 b) with false
      by (symmetry; apply atom_eqb_neq; congruence).
    replace (atom_eqb prod b) with false
      by (symmetry; apply atom_eqb_neq; congruence).
    reflexivity.
Qed.

(** X9.  Partial decay.  When the rate of [atom1] is at most 1, the decay
    update adds the decayed amount to the product cell, subtracts it from the
    cell [(atom1[0], atom2[0])], and changes nothing else. *)
Theorem decay_update_partial_cells (popt pop1 : grid) (atom1 atom2 : atom) :
  shape_ok popt -> shape_ok pop1 -> in_grid atom1 -> in_grid atom2 ->
  decays_completely atom1 = false ->
  let diff := (cell popt atom1 * cell Thalf atom1 * log2)%float in
  let target := (fst atom1, fst atom2) in
  exists prod pop1',
    decay_product (fst atom1) (snd atom1) = Ok (Some prod) /\
    decay_update popt atom1 (pop1, Some atom2) = Ok pop1' /\ shape_ok pop1' /\
    cell pop1' target =
      (if atom_eqb prod target then cell pop1 target + diff - diff
       else cell pop1 target - diff)%float /\
    (prod <> target -> cell pop1' prod = (cell pop1 prod + diff)%float) /\
    forall b, in_grid b -> b <> prod -> b <> target ->
      cell pop1' b = cell pop1 b.
Proof.
  intros Hpopt Hpop1 H1 H2 Hrate diff target.
  rewrite decays_completely_rate in Hrate by exact H1.
  destruct (decay_product_chart atom1 H1) as (prod & Hprod & Hp).
  assert (Ht : in_grid target)
    by (destruct H1 as [? _], H2 as [? _]; unfold in_grid, target;
        cbn [fst snd]; lia).
  exists prod.
  unfold decay_update. rewrite Hprod. cbn [bind fst snd].
  rewrite !get2_cell by (assumption || apply shape_ok_Thalf). cbn [bind].
  rewrite Hrate. cbn [bind]. fold diff.
  destruct (iadd2_chart pop1 prod diff Hpop1 Hp) as (g1 & -> & Hg1 & C1).
  cbn [bind].
  destruct (isub2_chart g1 target diff Hg1 Ht) as (g2 & Hg2eq & Hg2 & C2).
  cbn [fst snd target] in Hg2eq. rewrite Hg2eq.
  exists g2. split; [reflexivity |]. split; [reflexivity |].
  split; [exact Hg2 |]. split; [| split].
  - rewrite (C2 target Ht), atom_eqb_refl, (C1 target Ht).
    destruct (atom_eqb prod target) eqn:E; [| reflexivity].
    apply atom_eqb_eq in E. rewrite E. reflexivity.
  - intros Hne. rewrite (C2 prod Hp).
    replace (atom_eqb target prod) with false
      by (symmetry; apply atom_eqb_neq; congruence).
    rewrite (C1 prod Hp), atom_eqb_refl. reflexivity.
  - intros b Hb Hbp Hbt. rewrite (C2 b Hb), (C1 b Hb).
    replace (atom_eqb target b) with false
      by (symmetry; apply atom_eqb_neq; congruence).
    replace (atom_eqb prod b) with false
      by (symmetry; apply atom_eqb_neq; congruence).
    reflexivity.
Qed.

(** ** The active cells *)

Lemma where_nonzero_active (g : grid) :
  where_nonzero g = [map fst (active g); map snd (active g)].
Proof. reflexivity. Qed.

Lemma shape1_where_nonzero (g : grid) :
  shape1 (where_nonzero g) = length (active g).
Proof. rewrite where_nonzero_active. cbn [shape1]. apply length_map. Qed.

Lemma In_enumerate_from {A : Type} (l : list A) (s : nat) (i : Z) (x : A) :
  In (i, x) (combine (map Z.of_nat (seq s (length l))) l) <->
  exists k, i = Z.of_nat (s + k) /\ l !! k = Some x.
Proof.
  revert s. induction l as [| y l IH]; intros s; cbn [length seq map combine In].
  - split; [contradiction | intros (k & _ & Hk); discriminate].
  - rewrite IH. split.
    + intros [[= <- <-] | (k & -> & Hk)].
      * exists 0%nat. split; [f_equal; lia | reflexivity].
      * exists (S k). split; [f_equal; lia | exact Hk].
    + intros ([| k] & -> & Hk).
      * left. injection Hk as ->. f_equal. f_equal. lia.
      * right. exists k. split; [f_equal; lia | exact Hk].
Qed.

Lemma In_enumerate {A : Type} (l : list A) (i : Z) (x : A) :
  In (i, x) (enumerate l) <-> 0 <= i /\ l !! Z.to_nat i = Some x.
Proof.
  unfold enumerate. rewrite In_enumerate_from. split.
  - intros (k & -> & Hk). split; [lia |]. rewrite Nat.add_0_l, Nat2Z.id. exact Hk.
  - intros [Hi Hx]. exists (Z.to_nat i). split; [lia | exact Hx].
Qed.

Lemma In_active (g : grid) (a : atom) :
  In a (active g) <->
  exists row x,
    0 <= fst a /\ g !! Z.to_nat (fst a) = Some row /\
    0 <= snd a /\ row !! Z.to_nat (snd a) = Some x /\ nonzero x = true.
Proof.
  unfold active. rewrite in_flat_map. split.
  - intros ([i row] & Hrow & Hin). cbn [fst snd] in Hin.
    apply in_flat_map in Hin as ([j x] & Hx & Hin). cbn [fst snd] in Hin.
    destruct (nonzero x) eqn:Hnz; [| contradiction].
    destruct Hin as [<- | []]. cbn [fst snd].
    apply In_enumerate in Hrow as [Hi Hrow]. apply In_enumerate in Hx as [Hj Hx].
    exists row, x. auto.
  - intros (row & x & Hi & Hrow & Hj & Hx & Hnz).
    exists (fst a, row). split; [apply In_enumerate; auto |].
    cbn [fst snd]. apply in_flat_map. exists (snd a, x).
    split; [apply In_enumerate; auto |].
    cbn [fst snd]. rewrite Hnz. left. destruct a; reflexivity.
Qed.

(** On a row of the chart the active cells are the nuclides whose population
    is not 0. *)
Lemma In_active_chart (g : grid) (a : atom) :
  shape_ok g -> In a (active g) <-> in_grid a /\ nonzero (cell g a) = true.
Proof.
  intros Hg. rewrite In_active. split.
  - intros (row & x & Hi & Hrow & Hj & Hx & Hnz).
    assert (Ha : in_grid a).
    { destruct Hg as [Hlen Hrows].
      pose proof (lookup_lt_Some _ _ _ Hrow) as Hlt.
      assert (Hr : length row = 7%nat).
      { rewrite Forall_forall in Hrows. apply Hrows.
        eapply list_elem_of_lookup_2, Hrow. }
      pose proof (lookup_lt_Some _ _ _ Hx) as Hlt'.
      unfold in_grid. lia. }
    split; [exact Ha |].
    unfold cell, get2. rewrite (get1_inside g (fst a) row) by assumption.
    cbn [bind]. rewrite (get1_inside row (snd a) x) by assumption. exact Hnz.
  - intros [Ha Hnz].
    destruct (shape_ok_row g a Hg Ha) as (row & x & Hrow & _ & Hx).
    pose proof Ha as [Hz Hn].
    exists row, x. repeat split; try lia; try assumption.
    unfold cell, get2 in Hnz.
    rewrite (get1_inside g (fst a) row) in Hnz by (lia || assumption).
    cbn [bind] in Hnz.
    rewrite (get1_inside row (snd a) x) in Hnz by (lia || assumption).
    exact Hnz.
Qed.

Lemma get1_nat {A : Type} (l : list A) (k : nat) :
  get1 l (Z.of_nat k) =
  match l !! k with
  | Some x => Ok x
  | None => Raise IndexError
  end.
Proof.
  destruct (l !! k) as [x |] eqn:E.
  - apply get1_inside; [lia | rewrite Nat2Z.id; exact E].
  - apply get1_outside. apply lookup_ge_None in E. lia.
Qed.

Lemma cell_at_pairs (l : list (Z * Z)) (k : nat) :
  cell_at [map fst l; map snd l] k =
  match l !! k with
  | Some a => Ok a
  | None => Raise IndexError
  end.
Proof.
  unfold cell_at.
  change (get1 [map fst l; map snd l] 0) with (Ok (map fst l) : res (list Z)).
  change (get1 [map fst l; map snd l] 1) with (Ok (map snd l) : res (list Z)).
  cbn [bind]. rewrite !get1_nat, !list_lookup_fmap.
  destruct (l !! k) as [[z n] |]; reflexivity.
Qed.

(** [atom1] and [atom2] are read off the list of active cells. *)
Lemma cell_at_active (g : grid) (k : nat) :
  cell_at (where_nonzero g) k =
  match active g !! k with
  | Some a => Ok a
  | None => Raise IndexError
  end.
Proof. rewrite where_nonzero_active. apply cell_at_pairs. Qed.

(** X10.  What the loops iterate over.  On a row of the chart some position of
    the index arrays holds the cell [a] exactly when [a] is a nuclide whose
    population is not 0: negative and NaN populations count as active, both
    zeros do not. *)
Theorem where_nonzero_lists (g : grid) (a : atom) :
  shape_ok g ->
  (exists k, cell_at (where_nonzero g) k = Ok a) <->
  in_grid a /\ nonzero (cell g a) = true.
Proof.
  intros Hg. rewrite <- In_active_chart by exact Hg. split.
  - intros (k & Hk). rewrite cell_at_active in Hk.
    destruct (active g !! k) as [b |] eqn:E; [| discriminate].
    injection Hk as ->. apply list_elem_of_In. eapply list_elem_of_lookup_2, E.
  - intros Hin. apply list_elem_of_In, list_elem_of_lookup_1 in Hin as [k Hk].
    exists k. rewrite cell_at_active, Hk. reflexivity.
Qed.

(** ** When the step succeeds *)

Lemma active_lookup_in_grid (g : grid) (k : nat) (a : atom) :
  shape_ok g -> active g !! k = Some a -> in_grid a.
Proof.
  intros Hg Hk. apply (In_active_chart g a Hg).
  apply list_elem_of_In. eapply list_elem_of_lookup_2, Hk.
Qed.

(** One turn of the outer loop on a row with at least two active cells: it
    succeeds, keeps the shape of row t+1 and leaves [atom2] bound to the
    second active cell. *)
Lemma cell_update_chart (g pop1 : grid) (i : nat) (a1 h0 h1 : atom)
  (atom2 : option atom) :
  shape_ok g -> shape_ok pop1 ->
  active g !! i = Some a1 ->
  active g !! 0%nat = Some h0 -> active g !! 1%nat = Some h1 ->
  exists pop1',
    cell_update g (where_nonzero g) i (pop1, atom2) = Ok (pop1', Some h1) /\
    shape_ok pop1'.
Proof.
  intros Hg Hpop1 Hi H0 H1.
  pose proof (active_lookup_in_grid g i a1 Hg Hi) as Ga1.
  pose proof (active_lookup_in_grid g _ h0 Hg H0) as Gh0.
  pose proof (active_lookup_in_grid g _ h1 Hg H1) as Gh1.
  unfold cell_update. rewrite cell_at_active, Hi. cbn [bind].
  rewrite fusion_pass_reads_two, !cell_at_active, H0, H1. cbn [bind fst].
  destruct (fusion_update_chart g pop1 a1 h0 Hg Hpop1 Ga1 Gh0)
    as (p1 & -> & Hp1).
  cbn [bind].
  destruct (fusion_update_chart g p1 a1 h1 Hg Hp1 Ga1 Gh1)
    as (p2 & -> & Hp2).
  cbn [bind].
  destruct (decay_update_chart g p2 a1 h1 Hg Hp2 Ga1 Gh1)
    as (p3 & -> & Hp3).
  cbn [bind snd]. eauto.
Qed.

Lemma outer_loop_chart (g : grid) (h0 h1 : atom) (l : list nat) :
  shape_ok g ->
  active g !! 0%nat = Some h0 -> active g !! 1%nat = Some h1 ->
  Forall (fun i => (i < length (active g))%nat) l ->
  forall (pop1 : grid) (atom2 : option atom),
    shape_ok pop1 ->
    exists st,
      fold_left (fun acc i => st <- acc ;; cell_update g (where_nonzero g) i st)
        l (Ok (pop1, atom2)) = Ok st /\
      shape_ok (fst st).
Proof.
  intros Hg H0 H1 Hl. induction Hl as [| i l Hi _ IH]; intros pop1 atom2 Hpop1.
  - exists (pop1, atom2). split; [reflexivity | exact Hpop1].
  - cbn [fold_left bind].
    destruct (lookup_lt_is_Some_2 (active g) i Hi) as [a1 Ha1].
    destruct (cell_update_chart g pop1 i a1 h0 h1 atom2 Hg Hpop1 Ha1 H0 H1)
      as (pop1' & -> & Hpop1').
    apply IH, Hpop1'.
Qed.

(** The outcome of the step by the number of active cells. *)
Lemma timestep_chart (g : grid) (atom2 : option atom) :
  shape_ok g ->
  (length (active g) = 1%nat /\ timestep g atom2 = Raise IndexError) \/
  (length (active g) <> 1%nat /\
   exists st, timestep g atom2 = Ok st /\ shape_ok (fst st)).
Proof.
  intros Hg.
  destruct (active g) as [| h0 [| h1 l]] eqn:E.
  - right. split; [discriminate |].
    exists (g, atom2). split; [| exact Hg].
    unfold timestep. rewrite shape1_where_nonzero, E. reflexivity.
  - left. split; [reflexivity |]. destruct h0 as [z n].
    apply (single_active_cell_raises g atom2 z n).
    rewrite where_nonzero_active, E. reflexivity.
  - right. split; [discriminate |].
    unfold timestep. rewrite shape1_where_nonzero.
    apply (outer_loop_chart g h0 h1).
    + exact Hg.
    + rewrite E. reflexivity.
    + rewrite E. reflexivity.
    + apply Forall_forall. intros i Hi.
      apply list_elem_of_In, in_seq in Hi. lia.
    + exact Hg.
Qed.

(** X11.  When the step fails.  On a row of the chart the step raises, and then
    with [IndexError], exactly when one cell is active; with none or with two
    or more it completes, and the new row has the shape of the chart. *)
Theorem timestep_outcome (g : grid) (atom2 : option atom) :
  shape_ok g ->
  (shape1 (where_nonzero g) = 1%nat -> timestep g atom2 = Raise IndexError) /\
  (shape1 (where_nonzero g) <> 1%nat ->
   exists st, timestep g atom2 = Ok st /\ shape_ok (fst st)).
Proof.
  intros Hg. rewrite shape1_where_nonzero.
  destruct (timestep_chart g atom2 Hg) as [[Hone Hr] | [Hne Hok]];
    split; intros H; try contradiction; assumption.
Qed.

Lemma shape_ok_pop0 : shape_ok pop0.
Proof. split; [reflexivity | repeat constructor]. Qed.

Lemma timestep_outcome_witness :
  exists st, timestep pop0 None = Ok st /\ shape_ok (fst st).
Proof.
  apply (proj2 (timestep_outcome pop0 None shape_ok_pop0)).
  vm_compute. discriminate.
Defined.

(** X12.  A row with no active cell is a fixed point of the step, and the run
    from it repeats that row for ever. *)
Theorem run_without_active_cells (n : nat) (g : grid) (atom2 : option atom) :
  shape1 (where_nonzero g) = 0%nat ->
  timestep g atom2 = Ok (g, atom2) /\
  run n g atom2 = (repeat g (S n), None).
Proof.
  intros Hz.
  assert (Hstep : timestep g atom2 = Ok (g, atom2))
    by (unfold timestep; rewrite Hz; reflexivity).
  split; [exact Hstep |].
  induction n as [| n IH]; [reflexivity |].
  cbn [run]. rewrite Hstep, IH. reflexivity.
Qed.

Lemma run_without_active_cells_witness :
  run 3 zeros None = ([zeros; zeros; zeros; zeros], None).
Proof.
  apply (proj2 (run_without_active_cells 3 zeros None eq_refl)).
Defined.

Lemma timestep_Ok_shape (g : grid) (atom2 : option atom) (st : loop_state) :
  shape_ok g -> timestep g atom2 = Ok st -> shape_ok (fst st).
Proof.
  intros Hg Hst.
  destruct (timestep_chart g atom2 Hg) as [[_ Hr] | [_ (st' & Hst' & Hs)]];
    congruence.
Qed.

(** Every row of a run that starts from a row of the chart has the shape
    of the chart. *)
Lemma run_rows_shape (n : nat) (g : grid) (atom2 : option atom) :
  shape_ok g -> Forall shape_ok (fst (run n g atom2)).
Proof.
  revert g atom2. induction n as [| n IH]; intros g atom2 Hg; cbn [run].
  - constructor; [exact Hg | constructor].
  - destruct (timestep g atom2) as [[pop1 atom2'] | e] eqn:E; cbn [fst].
    + constructor; [exact Hg |]. apply IH.
      apply (timestep_Ok_shape g atom2 _ Hg E).
    + constructor; [exact Hg | constructor].
Qed.

(** X13.  How a run can end.  From a row of the chart, either all [n] steps
    complete and the history has [n+1] rows, or the run stops with
    [IndexError], and then at a row with exactly one active cell: no other
    exception and no other cause is possible. *)
Theorem run_outcome (n : nat) (g : grid) (atom2 : option atom) :
  shape_ok g ->
  (snd (run n g atom2) = None /\ length (fst (run n g atom2)) = S n) \/
  (snd (run n g atom2) = Some IndexError /\
   (length (fst (run n g atom2)) <= n)%nat /\
   exists g', last (fst (run n g atom2)) = Some g' /\
              shape1 (where_nonzero g') = 1%nat).
Proof.
  revert g atom2. induction n as [| n IH]; intros g atom2 Hg; cbn [run].
  - left. split; reflexivity.
  - destruct (timestep_chart g atom2 Hg) as [[Hone Hr] | [_ (st & Hst & Hs)]].
    + rewrite Hr. right. cbn [fst snd length]. split; [reflexivity |].
      split; [lia |]. exists g. split; [reflexivity |].
      rewrite shape1_where_nonzero. exact Hone.
    + rewrite Hst. destruct st as [pop1 atom2']. cbn [fst snd] in *.
      destruct (IH pop1 atom2' Hs) as [[Hn Hl] | (He & Hl & g' & Hlast & H1)].
      * left. split; [exact Hn | cbn [length]; rewrite Hl; reflexivity].
      * right. split; [exact He |]. split; [cbn [length]; lia |].
        exists g'. split; [| exact H1].
        rewrite last_cons, Hlast. reflexivity.
Qed.

Lemma run_outcome_witness :
  snd (run 2 (single (5, 6) 1000%float) None) = Some IndexError.
Proof.
  assert (Hs : shape_ok (single (5, 6) 1000%float))
    by (split; [reflexivity | repeat constructor]).
  destruct (run_outcome 2 (single (5, 6) 1000%float) None Hs)
    as [[Hn _] | [He _]].
  - vm_compute in Hn. discriminate.
  - exact He.
Defined.

(** X14.  The variable [atom2] carries nothing from one step to the next: on a
    row with an active cell the step gives the same result whatever [atom2]
    was bound to before. *)
Theorem timestep_forgets_atom2 (g : grid) (a b : option atom) :
  shape1 (where_nonzero g) <> 0%nat -> timestep g a = timestep g b.
Proof.
  intros Hne. unfold timestep.
  destruct (shape1 (where_nonzero g)) as [| k]; [contradiction |].
  cbn [seq fold_left bind].
  replace (cell_update g (where_nonzero g) 0 (g, a))
    with (cell_update g (where_nonzero g) 0 (g, b)); [reflexivity |].
  unfold cell_update.
  destruct (cell_at (where_nonzero g) 0) as [a1 | e]; cbn [bind]; [| reflexivity].
  rewrite !fusion_pass_reads_two. reflexivity.
Qed.

Lemma timestep_forgets_atom2_witness :
  timestep pop0 None = timestep pop0 (Some (5, 6)).
Proof. apply (timestep_forgets_atom2 pop0). vm_compute. discriminate. Defined.

(** ** Rows at rest *)

Lemma sub_other_zero_rate_diff (x p : float) :
  finite_nonzero x = true -> finite_nonzero p = true ->
  (x - p * 0 * log2 = x)%float.
Proof.
  intros Hx Hp. apply Prim2SF_inj. rewrite sub_spec.
  destruct (zero_rate_diff_SF p Hp) as [s' ->].
  destruct (finite_nonzero_SF x Hx) as (s & m & e & ->). reflexivity.
Qed.

Lemma finite_row_check (g : grid) :
  forallb (finite_cell g) cells = true -> finite_row g.
Proof.
  intros Hall b Hb.
  pose proof (chart_forall (finite_cell g) Hall b Hb) as H.
  unfold finite_cell in H. apply orb_true_iff in H as [H | H].
  - left. apply Leibniz.eqb_spec, H.
  - right. exact H.
Qed.

(** Writing back what a cell holds leaves the row as it is. *)
Lemma set2_same (g : grid) (a : atom) :
  shape_ok g -> in_grid a -> set2 g (fst a) (snd a) (cell g a) = Ok g.
Proof.
  unfold grid in *. intros Hg Ha.
  destruct (shape_ok_row g a Hg Ha) as (row & x & Hrow & Hlen & Hx).
  pose proof Ha as [Hz Hn]. pose proof Hg as [Hglen _].
  assert (Hc : cell g a = x).
  { unfold cell, get2. rewrite (get1_inside g (fst a) row) by (lia || exact Hrow).
    cbn [bind]. rewrite (get1_inside row (snd a) x) by (lia || exact Hx).
    reflexivity. }
  rewrite Hc. unfold set2.
  rewrite (get1_inside g (fst a) row) by (lia || exact Hrow). cbn [bind].
  unfold set1. rewrite !norm_index_inside by lia. cbn [bind].
  rewrite (list_insert_id row _ x Hx), (list_insert_id g _ row Hrow).
  reflexivity.
Qed.

(** The decay update of a Stable cell of rate 0 on a finite row moves
    nothing. *)
Lemma decay_update_at_rest (g : grid) (atom1 atom2 : atom) :
  shape_ok g -> finite_row g -> in_grid atom1 -> in_grid atom2 ->
  nonzero (cell g atom1) = true ->
  get2 Rules (fst atom1) (snd atom1) = Ok (rule_code Stable) ->
  get2 Thalf (fst atom1) (snd atom1) = Ok 0%float ->
  decay_update g atom1 (g, Some atom2) = Ok g.
Proof.
  intros Hg Hfin H1 H2 Hnz HR HT.
  assert (Hp : finite_nonzero (cell g atom1) = true).
  { destruct (Hfin atom1 H1) as [H0 | Hf]; [| exact Hf].
    rewrite H0 in Hnz. discriminate. }
  assert (Ht : in_grid (fst atom1, fst atom2))
    by (destruct H1 as [? _], H2 as [? _]; unfold in_grid; cbn [fst snd]; lia).
  pose proof (get2_cell g atom1 Hg H1) as E1.
  pose proof (get2_cell g _ Hg Ht) as Et. cbn [fst snd] in Et.
  pose proof (set2_same g atom1 Hg H1) as S1.
  pose proof (set2_same g _ Hg Ht) as St. cbn [fst snd] in St.
  unfold decay_update, decay_product. rewrite HR, HT. cbn [bind rule_code].
  change ((0 =? 0)%Z) with true. cbn match.
  change ((1 <? 0 * log2)%float) with false. cbn match.
  cbn [bind fst snd].
  rewrite E1. cbn [bind].
  unfold iadd2. rewrite E1. cbn [bind].
  rewrite add_zero_rate_diff by exact Hp.
  rewrite S1. cbn [bind].
  unfold isub2. rewrite Et. cbn [bind].
  replace (cell g (fst atom1, fst atom2) - cell g atom1 * 0 * log2)%float
    with (cell g (fst atom1, fst atom2)); [exact St |].
  destruct (Hfin _ Ht) as [H0 | Hf].
  - rewrite H0. symmetry. apply zero_sub_zero_rate_diff, Hp.
  - symmetry. apply sub_other_zero_rate_diff; assumption.
Qed.

Lemma cell_update_at_rest (g : grid) (i : nat) (a1 h0 h1 : atom)
  (atom2 : option atom) :
  shape_ok g -> finite_row g ->
  active g !! i = Some a1 ->
  active g !! 0%nat = Some h0 -> active g !! 1%nat = Some h1 ->
  at_rest h0 h1 a1 ->
  cell_update g (where_nonzero g) i (g, atom2) = Ok (g, Some h1).
Proof.
  intros Hg Hfin Hi H0 H1 (HR & HT & A0 & A1).
  pose proof (active_lookup_in_grid g i a1 Hg Hi) as Ga1.
  pose proof (active_lookup_in_grid g _ h1 Hg H1) as Gh1.
  assert (Hnz : nonzero (cell g a1) = true).
  { apply (In_active_chart g a1 Hg).
    apply list_elem_of_In. eapply list_elem_of_lookup_2, Hi. }
  unfold cell_update. rewrite cell_at_active, Hi. cbn [bind].
  rewrite fusion_pass_reads_two, !cell_at_active, H0, H1. cbn [bind fst].
  rewrite (fusion_update_rejected g g a1 h0 A0). cbn [bind].
  rewrite (fusion_update_rejected g g a1 h1 A1). cbn [bind].
  rewrite (decay_update_at_rest g a1 h1) by assumption.
  reflexivity.
Qed.

Lemma outer_loop_at_rest (g : grid) (h0 h1 : atom) (l : list nat) :
  shape_ok g -> finite_row g ->
  active g !! 0%nat = Some h0 -> active g !! 1%nat = Some h1 ->
  Forall (at_rest h0 h1) (active g) ->
  Forall (fun i => (i < length (active g))%nat) l -> l <> [] ->
  forall atom2,
    fold_left (fun acc i => st <- acc ;; cell_update g (where_nonzero g) i st)
      l (Ok (g, atom2)) = Ok (g, Some h1).
Proof.
  intros Hg Hfin H0 H1 Hrest Hl.
  induction Hl as [| i l Hi Hl IH]; intros Hne atom2; [contradiction |].
  cbn [fold_left bind].
  destruct (lookup_lt_is_Some_2 (active g) i Hi) as [a1 Ha1].
  rewrite (cell_update_at_rest g i a1 h0 h1 atom2) by
    (try assumption;
     rewrite Forall_forall in Hrest; apply Hrest;
     eapply list_elem_of_lookup_2, Ha1).
  destruct l as [| j l]; [reflexivity |].
  apply IH. discriminate.
Qed.

(** X15.  Rest.  Take a finite row of the chart with at least two active cells,
    all of them Stable with rate 0 and none of them accepted for fusion with
    the first two.  The step returns the row unchanged, and the run from it
    repeats the row for ever. *)
Theorem row_at_rest (g : grid) (h0 h1 : atom) :
  shape_ok g -> finite_row g ->
  cell_at (where_nonzero g) 0 = Ok h0 ->
  cell_at (where_nonzero g) 1 = Ok h1 ->
  Forall (at_rest h0 h1) (active g) ->
  forall (atom2 : option atom),
    timestep g atom2 = Ok (g, Some h1) /\
    forall n, run n g atom2 = (repeat g (S n), None).
Proof.
  intros Hg Hfin C0 C1 Hrest.
  rewrite cell_at_active in C0, C1.
  destruct (active g !! 0%nat) as [h0' |] eqn:H0; [| discriminate].
  destruct (active g !! 1%nat) as [h1' |] eqn:H1; [| discriminate].
  injection C0 as ->. injection C1 as ->.
  assert (Hstep : forall atom2, timestep g atom2 = Ok (g, Some h1)).
  { intros atom2. unfold timestep. rewrite shape1_where_nonzero.
    apply (outer_loop_at_rest g h0 h1); try assumption.
    - apply Forall_forall. intros i Hi.
      apply list_elem_of_In, in_seq in Hi. lia.
    - apply lookup_lt_Some in H1.
      destruct (length (active g)) as [| k]; [lia | discriminate]. }
  intros atom2. split; [apply Hstep |].
  intros n. revert atom2. induction n as [| n IH]; intros atom2; [reflexivity |].
  cbn [run]. rewrite Hstep, IH. reflexivity.
Qed.

Lemma row_at_rest_witness :
  let g := row_of [((3, 5), 1000%float); ((5, 6), 250%float)] in
  timestep g None = Ok (g, Some (5, 6)) /\
  run 3 g None = ([g; g; g; g], None).
Proof.
  cbv zeta.
  assert (H : forall atom2,
    timestep (row_of [((3, 5), 1000%float); ((5, 6), 250%float)]) atom2
      = Ok (row_of [((3, 5), 1000%float); ((5, 6), 250%float)], Some (5, 6)) /\
    forall n, run n (row_of [((3, 5), 1000%float); ((5, 6), 250%float)]) atom2
      = (repeat (row_of [((3, 5), 1000%float); ((5, 6), 250%float)]) (S n), None)).
  { apply (row_at_rest _ (3, 5) (5, 6)).
    - split; [reflexivity | repeat constructor].
    - apply finite_row_check. vm_compute. reflexivity.
    - vm_compute. reflexivity.
    - vm_compute. reflexivity.
    - change (active (row_of [((3, 5), 1000%float); ((5, 6), 250%float)]))
        with [(3, 5); (5, 6)].
      repeat constructor. }
  split; [apply (proj1 (H None)) | apply (proj2 (H None) 3%nat)].
Defined.

Lemma fusion_update_transfer_witness :
  exists pop1',
    fusion_update pop0 (0, 0) (0, 1) pop0 = Ok pop1' /\
    cell pop1' (5, 6) = cell pop0 (5, 6).
Proof.
  destruct (fusion_update_transfer pop0 pop0 (0, 0) (0, 1))
    as (pop1' & Hup & _ & _ & _ & _ & Hframe).
  - apply shape_ok_pop0.
  - apply shape_ok_pop0.
  - apply in_gridb_sound. reflexivity.
  - apply in_gridb_sound. reflexivity.
  - reflexivity.
  - exists pop1'. split; [exact Hup |].
    apply Hframe; [apply in_gridb_sound; reflexivity | | |];
      vm_compute; discriminate.
Defined.

Lemma decay_product_index_range_witness :
  (exists a', decay_product (-1) 0 = Ok (Some a')) /\
  decay_product 6 0 = Raise IndexError.
Proof.
  split.
  - apply (proj1 (decay_product_index_range (-1) 0
                    ltac:(unfold int64; lia) ltac:(unfold int64; lia))).
    lia.
  - apply (proj2 (decay_product_index_range 6 0
                    ltac:(unfold int64; lia) ltac:(unfold int64; lia))).
    lia.
Defined.

Lemma decay_update_complete_witness :
  exists pop1',
    decay_update (single (1, 0) 1000%float) (1, 0)
      (single (1, 0) 1000%float, None) = Ok pop1' /\
    cell pop1' (1, 0) = 0%float.
Proof.
  assert (Hs : shape_ok (single (1, 0) 1000%float))
    by (split; [reflexivity | repeat constructor]).
  destruct (decay_update_complete (single (1, 0) 1000%float)
              (single (1, 0) 1000%float) (1, 0) None Hs Hs)
    as (prod & pop1' & _ & Hup & _ & Hzero & _).
  - apply in_gridb_sound. reflexivity.
  - reflexivity.
  - exists pop1'. split; assumption.
Defined.

Lemma decay_update_partial_cells_witness :
  let g := row_of [((5, 4), 1000%float); ((5, 5), 1000%float)] in
  exists pop1',
    decay_update g (5, 4) (g, Some (5, 5)) = Ok pop1' /\
    cell pop1' (5, 4) = cell g (5, 4).
Proof.
  cbv zeta.
  assert (Hs : shape_ok (row_of [((5, 4), 1000%float); ((5, 5), 1000%float)]))
    by (split; [reflexivity | repeat constructor]).
  destruct (decay_update_partial_cells _ _ (5, 4) (5, 5) Hs Hs)
    as (prod & pop1' & Hprod & Hup & _ & _ & _ & Hframe).
  - apply in_gridb_sound. reflexivity.
  - apply in_gridb_sound. reflexivity.
  - reflexivity.
  - exists pop1'. split; [exact Hup |].
    change (decay_product (fst (5, 4)) (snd (5, 4))) with (Ok (Some (4, 5)) : res (option atom)) in Hprod.
    injection Hprod as <-.
    apply Hframe; [apply in_gridb_sound; reflexivity | |]; vm_compute; discriminate.
Defined.

Lemma where_nonzero_lists_witness :
  exists k, cell_at (where_nonzero pop0) k = Ok (0, 1).
Proof.
  apply (proj2 (where_nonzero_lists pop0 (0, 1) shape_ok_pop0)).
  split; [apply in_gridb_sound |]; reflexivity.
Defined.

(** X16.  A decay never adds nucleons: whatever cell [decay_product] is asked
    about, the product has the same Z+N, or one less, or four less. *)
Theorem decay_never_gains_nucleons (z n : Z) (a' : atom) :
  decay_product z n = Ok (Some a') ->
  fst a' + snd a' = z + n \/ fst a' + snd a' = z + n - 1 \/
  fst a' + snd a' = z + n - 4.
Proof.
  unfold decay_product.
  destruct (get2 Rules z n) as [rule | e]; cbn [bind]; [| discriminate].
  repeat match goal with
  | |- (if ?c then _ else _) = _ -> _ => destruct c
  end;
    intros [= <-]; cbn [fst snd]; lia.
Qed.

Lemma decay_never_gains_nucleons_witness :
  fst (1, 2) + snd (1, 2) = 3 + 4 - 4.
Proof.
  destruct (decay_never_gains_nucleons 3 4 (1, 2) eq_refl) as [H | [H | H]];
    [discriminate H | discriminate H | exact H].
Defined.

(** ** No cell is listed twice *)

Lemma NoDup_enumerate_from {A : Type} (l : list A) (s : nat) :
  NoDup (map fst (combine (map Z.of_nat (seq s (length l))) l)).
Proof.
  revert s. induction l as [| y l IH]; intros s;
    cbn [length seq map combine fst]; [constructor |].
  constructor; [| apply IH].
  intros Hin. apply list_elem_of_In, in_map_iff in Hin as ([i x] & Hi & Hin).
  cbn [fst] in Hi. subst i.
  apply In_enumerate_from in Hin as (k & Hk & _). lia.
Qed.

Lemma NoDup_flat_map_keys {B C : Type} (key : C -> Z) (f : Z * B -> list C)
  (l : list (Z * B)) :
  NoDup (map fst l) ->
  (forall p c, In c (f p) -> key c = fst p) ->
  (forall p, NoDup (f p)) ->
  NoDup (flat_map f l).
Proof.
  intros Hl Hkey Hf. induction l as [| p l IH]; cbn [flat_map]; [constructor |].
  cbn [map] in Hl. apply NoDup_cons in Hl as [Hp Hl].
  apply NoDup_app. split; [apply Hf |]. split; [| apply IH, Hl].
  intros c Hc Hc'. apply Hp.
  apply list_elem_of_In in Hc, Hc'. apply list_elem_of_In.
  apply in_flat_map in Hc' as (q & Hq & Hcq).
  apply in_map_iff. exists q. split; [| exact Hq].
  rewrite <- (Hkey q c Hcq). apply Hkey, Hc.
Qed.

Lemma NoDup_active (g : grid) : NoDup (active g).
Proof.
  unfold active.
  apply (NoDup_flat_map_keys fst); [apply NoDup_enumerate_from | |].
  - intros [i row] c Hc. cbn [fst snd] in *.
    apply in_flat_map in Hc as ([j x] & _ & Hc). cbn [fst snd] in Hc.
    destruct (nonzero x); [| contradiction].
    destruct Hc as [<- | []]. reflexivity.
  - intros [i row]. cbn [fst snd].
    apply (NoDup_flat_map_keys snd); [apply NoDup_enumerate_from | |].
    + intros [j x] c Hc. cbn [fst snd] in *.
      destruct (nonzero x); [| contradiction].
      destruct Hc as [<- | []]. reflexivity.
    + intros [j x]. cbn [fst snd].
      destruct (nonzero x); [apply NoDup_singleton | constructor].
Qed.

(** X17.  The index arrays list no cell twice, so the outer loop takes every
    active cell as [atom1] once: two positions hold two cells. *)
Theorem where_nonzero_lists_once (g : grid) (k k' : nat) (a b : atom) :
  k <> k' ->
  cell_at (where_nonzero g) k = Ok a ->
  cell_at (where_nonzero g) k' = Ok b ->
  a <> b.
Proof.
  rewrite !cell_at_active. intros Hne.
  destruct (active g !! k) as [a0 |] eqn:E; [| discriminate].
  destruct (active g !! k') as [b0 |] eqn:E'; [| discriminate].
  intros [= ->] [= ->] Heq. subst b. apply Hne.
  eapply NoDup_lookup; [apply NoDup_active | exact E | exact E'].
Qed.

Lemma where_nonzero_lists_once_witness : (0, 0) <> ((0, 1) : atom).
Proof.
  apply (where_nonzero_lists_once pop0 0 1); [lia | reflexivity | reflexivity].
Defined.
